(** * dl_tutorial: the slice loader of [code/data.py]

    A shallow embedding of [create_summary], [load] and [set_root] and of
    the few NumPy operations they use, followed by the properties of the
    loader.  Python 3 semantics are assumed throughout (the variables of a
    list comprehension are local to it; a [for] variable outlives its loop). *)

From Stdlib Require Import String Ascii.
From Stdlib.Strings Require Import Byte.
From Stdlib Require Import ZArith NArith List Bool Lia.
From Stdlib Require Import Permutation QArith.
Import ListNotations.
Open Scope string_scope.
Open Scope Z_scope.

Set Implicit Arguments.

(** ** Exceptions and results *)

(** The Python exceptions that the statements of [data.py] can raise. *)
Inductive exn : Type :=
| IndexError          (* a[z] out of bounds *)
| ValueError          (* reshape, stack of nothing, randint on an empty range, mmap of "" *)
| KeyError            (* summary[mode] with an unknown key *)
| FileNotFoundError   (* np.memmap / open on a missing path *)
| UnpicklingError.    (* pickle.load on a file that holds no pickle *)

Inductive result (A : Type) : Type :=
| Ok (a : A)
| Err (e : exn).
Arguments Err {A} e.

Definition result_bind {A B} (r : result A) (f : A -> result B) : result B :=
  match r with Ok a => f a | Err e => Err e end.

Definition is_ok {A} (r : result A) : bool :=
  match r with Ok _ => true | Err _ => false end.

(** [holds P r]: the call returned, and its value passes the test [P]. *)
Definition holds {A} (P : A -> bool) (r : result A) : bool :=
  match r with Ok a => P a | Err _ => false end.

Definition raised {A} (r : result A) : option exn :=
  match r with Ok _ => None | Err e => Some e end.

(** ** NumPy arrays *)

Inductive np_dtype : Type :=
| np_bool | np_uint8 | np_int16 | np_int64 | np_uint64 | np_float32 | np_float64.

Definition itemsize (d : np_dtype) : Z :=
  match d with
  | np_bool | np_uint8 => 1
  | np_int16 => 2
  | np_float32 => 4
  | np_int64 | np_uint64 | np_float64 => 8
  end.

(** An array is its element type tag, its shape and its elements in
    row-major (C) order. *)
Record ndarray (T : Type) : Type := mk_ndarray {
  dtype : np_dtype;
  shape : list Z;
  data : list T
}.

Definition prod_shape (s : list Z) : Z := fold_right Z.mul 1 s.

Definition len {T} (l : list T) : Z := Z.of_nat (length l).

(** Decoding of a raw buffer at a dtype (little-endian, two's complement). *)
Definition byte_val (b : byte) : Z := Z.of_N (Byte.to_N b).

Definition wrap_int16 (v : Z) : Z :=
  let u := v mod 65536 in if u <? 32768 then u else u - 65536.

Fixpoint int16_of_bytes (bs : list byte) : list Z :=
  match bs with
  | lo :: hi :: rest => wrap_int16 (byte_val lo + 256 * byte_val hi) :: int16_of_bytes rest
  | _ => []
  end.

Definition uint8_of_bytes (bs : list byte) : list Z := map byte_val bs.

Definition decode (d : np_dtype) (bs : list byte) : list Z :=
  match d with
  | np_int16 => int16_of_bytes bs
  | _ => uint8_of_bytes bs
  end.

(** [np.memmap(fname, dtype=d, mode='r')] given what the path holds:
    a missing file, an empty file and a size that is not a multiple of the
    item size are errors; otherwise a one-dimensional view. *)
Definition memmap (contents : option (list byte)) (d : np_dtype) : result (ndarray Z) :=
  match contents with
  | None => Err FileNotFoundError
  | Some bs =>
      if len bs =? 0 then Err ValueError
      else if negb (len bs mod itemsize d =? 0) then Err ValueError
      else let xs := decode d bs in
           Ok {| dtype := d; shape := [len xs]; data := xs |}
  end.

(** [a.reshape(-1, d1, ..., dk)]: the leading dimension is inferred. *)
Definition reshape_infer {T} (a : ndarray T) (dims : list Z) : result (ndarray T) :=
  let known := prod_shape dims in
  let size := len (data a) in
  if (0 <? known) && (size mod known =? 0)
  then Ok {| dtype := dtype a; shape := size / known :: dims; data := data a |}
  else Err ValueError.

(** Python's index normalisation on an axis of length [n]:
    [-n <= z < 0] counts from the end. *)
Definition normalize_index (z n : Z) : option Z :=
  if (0 <=? z) && (z <? n) then Some z
  else if (- n <=? z) && (z <? 0) then Some (z + n)
  else None.

Definition sub_block {T} (l : list T) (i size : Z) : list T :=
  firstn (Z.to_nat size) (skipn (Z.to_nat (i * size)) l).

(** [a[z]]: indexing the first axis with an integer. *)
Definition getitem0 {T} (a : ndarray T) (z : Z) : result (ndarray T) :=
  match shape a with
  | [] => Err IndexError
  | n :: rest =>
      match normalize_index z n with
      | None => Err IndexError
      | Some i => Ok {| dtype := dtype a; shape := rest;
                        data := sub_block (data a) i (prod_shape rest) |}
      end
  end.

(** The elements at positions 0, c, 2c, ... : channel 0 of a buffer whose
    last axis has length [c]. *)
Fixpoint stride_from {T} (c k : nat) (l : list T) : list T :=
  match l with
  | [] => []
  | x :: r =>
      match k with
      | O => x :: stride_from c (c - 1) r
      | S k' => stride_from c k' r
      end
  end.

Definition channel0 {T} (c : Z) (l : list T) : list T := stride_from (Z.to_nat c) 0 l.

Definition last_dim (s : list Z) : Z := last s 1.

Definition set_last_dim (s : list Z) (d : Z) : list Z := removelast s ++ [d].

(** [a[z, ..., :1]]: index the first axis, keep the first entry of the last. *)
Definition getitem0_first_channel {T} (a : ndarray T) (z : Z) : result (ndarray T) :=
  match getitem0 a z with
  | Err e => Err e
  | Ok s =>
      match shape s with
      | [] => Err IndexError
      | _ :: _ =>
          Ok {| dtype := dtype s;
                shape := set_last_dim (shape s) (Z.min 1 (last_dim (shape s)));
                data := if last_dim (shape s) =? 0 then []
                        else channel0 (last_dim (shape s)) (data s) |}
      end
  end.

Definition map_array {T U} (d : np_dtype) (f : T -> U) (a : ndarray T) : ndarray U :=
  {| dtype := d; shape := shape a; data := map f (data a) |}.

(** [a > 0] on an integer array. *)
Definition gt0 (a : ndarray Z) : ndarray bool := map_array np_bool (fun v => 0 <? v) a.

Definition sum_list (l : list Z) : Z := fold_right Z.add 0 l.

(** [np.sum(a, axis=(1,2,3))] of a four-dimensional uint8 array: one sum
    per entry of the first axis, accumulated in the platform's unsigned
    64-bit integer. *)
Definition sum_axes123 (a : ndarray Z) : list Z :=
  match shape a with
  | n :: rest =>
      map (fun i => sum_list (sub_block (data a) (Z.of_nat i) (prod_shape rest)) mod 2 ^ 64)
          (seq 0 (Z.to_nat n))
  | [] => []
  end.

(** [np.nonzero(mask)[0]] of a one-dimensional boolean array. *)
Fixpoint nonzero_from (i : Z) (mask : list bool) : list Z :=
  match mask with
  | [] => []
  | b :: r => if b then i :: nonzero_from (i + 1) r else nonzero_from (i + 1) r
  end.

Definition nonzero (mask : list bool) : list Z := nonzero_from 0 mask.

Definition list_eqb (a b : list Z) : bool :=
  (Nat.eqb (length a) (length b)) && forallb (fun p => fst p =? snd p) (combine a b).

(** [np.stack(arrays, axis=0)]: at least one array, all of one shape. *)
Definition stack {T} (arrays : list (ndarray T)) : result (ndarray T) :=
  match arrays with
  | [] => Err ValueError
  | a :: _ =>
      if forallb (fun b => list_eqb (shape b) (shape a)) arrays
      then Ok {| dtype := dtype a; shape := len arrays :: shape a;
                 data := concat (map (@data T) arrays) |}
      else Err ValueError
  end.

(** NumPy's [promote_types] on the dtypes above: the smallest dtype to
    which both can be safely cast. *)
Definition promote_types (a b : np_dtype) : np_dtype :=
  match a, b with
  | np_float64, _ | _, np_float64 => np_float64
  | np_float32, (np_int64 | np_uint64) | (np_int64 | np_uint64), np_float32 => np_float64
  | np_float32, _ | _, np_float32 => np_float32
  | np_int64, np_uint64 | np_uint64, np_int64 => np_float64
  | np_int16, np_uint64 | np_uint64, np_int16 => np_float64
  | np_uint64, _ | _, np_uint64 => np_uint64
  | np_int64, _ | _, np_int64 => np_int64
  | np_int16, _ | _, np_int16 => np_int16
  | np_uint8, _ | _, np_uint8 => np_uint8
  | np_bool, np_bool => np_bool
  end.

(** ** Floating-point values

    The arithmetic of [np.float64] is kept abstract: the loader only
    subtracts, divides and compares.  [XQ] below is the instance used to
    run the model. *)
Class NumpyFloat (F : Type) : Type := {
  of_int : Z -> F;              (* conversion of an integer element *)
  of_Q : Q -> F;                (* a decimal literal of the source *)
  of_bool : bool -> F;          (* True -> 1.0, False -> 0.0 *)
  fsub : F -> F -> F;
  fdiv : F -> F -> F;
  fgt : F -> F -> bool;
  np_mean : list Z -> F;        (* np.mean of a 1-d integer array *)
  np_std : list Z -> F;         (* np.std of a 1-d integer array *)
  random_sample : N -> F        (* a raw generator output as a float in [0, 1) *)
}.

(** ** POSIX paths: [os.path.dirname] and [os.path.basename] *)

Definition slash : ascii := "/"%char.

Definition is_slash (c : ascii) : bool := Ascii.eqb c slash.

(** On the reversed path: the characters after the last slash, and the
    rest (which starts with that slash, or is empty). *)
Fixpoint split_last_slash (rev_path : list ascii) : list ascii * list ascii :=
  match rev_path with
  | [] => ([], [])
  | c :: r =>
      if is_slash c then ([], rev_path)
      else let (tail, head) := split_last_slash r in (c :: tail, head)
  end.

Fixpoint drop_slashes (rev_head : list ascii) : list ascii :=
  match rev_head with
  | c :: r => if is_slash c then drop_slashes r else rev_head
  | [] => []
  end.

Definition basename (p : string) : string :=
  string_of_list_ascii (rev (fst (split_last_slash (rev (list_ascii_of_string p))))).

Definition dirname (p : string) : string :=
  let head := snd (split_last_slash (rev (list_ascii_of_string p))) in
  string_of_list_ascii
    (rev (if forallb is_slash head then head else drop_slashes head)).

(** ** The summary and the process state *)

Section Loader.

Context {F : Type} {NF : NumpyFloat F}.

(** One entry of a cohort: [{'studyid': ..., 'mean': ..., 'sd': ...}]. *)
Record StudyRecord : Type := mk_stats {
  studyid : string;
  mean : F;
  sd : F
}.

(** [{'train': [...], 'valid': [...]}]. *)
Record Summary : Type := mk_summary {
  train : list StudyRecord;
  valid : list StudyRecord
}.

(** [summary[key]]. *)
Definition summary_get (s : Summary) (key : string) : result (list StudyRecord) :=
  if String.eqb key "train" then Ok (train s)
  else if String.eqb key "valid" then Ok (valid s)
  else Err KeyError.

(** [summary[key].append(r)]. *)
Definition summary_append (s : Summary) (key : string) (r : StudyRecord) : result Summary :=
  if String.eqb key "train" then Ok {| train := train s ++ [r]; valid := valid s |}
  else if String.eqb key "valid" then Ok {| train := train s; valid := valid s ++ [r] |}
  else Err KeyError.

(** [l[i]] on a Python list. *)
Definition list_getitem {T} (l : list T) (i : Z) : result T :=
  match normalize_index i (len l) with
  | None => Err IndexError
  | Some j => match nth_error l (Z.to_nat j) with
              | Some x => Ok x
              | None => Err IndexError
              end
  end.

Fixpoint enumerate_from {T} (i : Z) (l : list T) : list (Z * T) :=
  match l with
  | [] => []
  | x :: r => (i, x) :: enumerate_from (i + 1) r
  end.

Definition enumerate {T} (l : list T) : list (Z * T) := enumerate_from 0 l.

(** The generator behind [np.random]: the sequence of its raw outputs
    and how many were consumed. *)
Record RandomState : Type := mk_rng {
  raw : nat -> N;
  pos : nat
}.

Definition next_raw (g : RandomState) : N * RandomState :=
  (raw g (pos g), {| raw := raw g; pos := S (pos g) |}).

(** The state a call can see or touch: the two module globals, the files
    under the root, the generator and what was printed.  Pickle files are
    kept apart from raw buffers: no path of [data.py] is read both ways. *)
Record World : Type := mk_world {
  root : string;
  summary : Summary;
  files : string -> option (list byte);
  pickles : string -> option Summary;
  dirs : string -> bool;
  glob_result : string -> list string;
  rng : RandomState;
  stdout : list (Z * string)
}.

(** The globals of the module, the part [global root, summary] names. *)
Definition globals (w : World) : string * Summary := (root w, summary w).

(** *** [np.random] on a generator state *)

(** [np.random.rand()]. *)
Definition random_rand (g : RandomState) : F * RandomState :=
  let (r, g') := next_raw g in (random_sample r, g').

Fixpoint randint_draws (low span : Z) (n : nat) (g : RandomState) : list Z * RandomState :=
  match n with
  | O => ([], g)
  | S n' =>
      let (r, g1) := next_raw g in
      let (rest, g2) := randint_draws low span n' g1 in
      (low + Z.of_N r mod span :: rest, g2)
  end.

(** [np.random.randint(low, high, n)]: [n] integers of [low, high). *)
Definition random_randint (low high n : Z) (g : RandomState) : result (list Z) * RandomState :=
  if (high <=? low) || (n <? 0) then (Err ValueError, g)
  else let (l, g') := randint_draws low (high - low) (Z.to_nat n) g in (Ok l, g').

Fixpoint list_set {T} (l : list T) (i : nat) (x : T) : list T :=
  match l, i with
  | [], _ => []
  | _ :: r, O => x :: r
  | y :: r, S i' => y :: list_set r i' x
  end.

(** [x[i], x[j] = x[j], x[i]]. *)
Definition swap {T} (l : list T) (i j : nat) : list T :=
  match nth_error l i, nth_error l j with
  | Some a, Some b => list_set (list_set l i b) j a
  | _, _ => l
  end.

(** The loop of [np.random.shuffle]:
    [for i in reversed(range(1, n)): j = random_interval(i); swap(i, j)]. *)
Fixpoint shuffle_from {T} (i : nat) (l : list T) (g : RandomState) : list T * RandomState :=
  match i with
  | O => (l, g)
  | S i' =>
      let (r, g') := next_raw g in
      shuffle_from i' (swap l i (N.to_nat (r mod N.of_nat (S i)))) g'
  end.

Definition random_shuffle {T} (l : list T) (g : RandomState) : list T * RandomState :=
  shuffle_from (length l - 1) l g.

(** *** Effects *)

(** What a statement of [data.py] asks of its environment. *)
Inductive event : Type -> Type :=
| GetRoot : event string                                 (* read the global root *)
| GetSummary : event Summary                             (* read the global summary *)
| SetRoot (loc : string) : event unit                    (* root = loc *)
| SetSummary (s : Summary) : event unit                  (* summary = s *)
| Glob (pattern : string) : event (list string)          (* glob.glob *)
| PathExists (p : string) : event bool                   (* os.path.exists *)
| ReadFile (p : string) : event (option (list byte))     (* the buffer under np.memmap(mode='r') *)
| PickleDump (s : Summary) (p : string) : event (result unit)
| PickleLoad (p : string) : event (result Summary)
| Print (n : Z) (p : string) : event unit                (* the progress line *)
| RandomRand : event F
| RandomRandint (low high n : Z) : event (result (list Z))
| RandomShuffle (z : list Z) : event (list Z).

(** A program: a finite tree of effects ending in a value or an exception. *)
Inductive Prog (A : Type) : Type :=
| Ret (a : A)
| Raise (e : exn)
| Vis (X : Type) (ev : event X) (k : X -> Prog A).
Arguments Raise {A} e.
Arguments Vis {A X} ev k.

Fixpoint bind {A B} (p : Prog A) (f : A -> Prog B) : Prog B :=
  match p with
  | Ret a => f a
  | Raise e => Raise e
  | Vis ev k => Vis ev (fun x => bind (k x) f)
  end.

Definition trigger {X} (ev : event X) : Prog X := Vis ev (fun x => Ret x).

(** A pure operation that can raise. *)
Definition lift {A} (r : result A) : Prog A :=
  match r with Ok a => Ret a | Err e => Raise e end.

Local Notation "x <- c ;; k" := (bind c (fun x => k))
  (at level 61, c at next level, right associativity).
Local Notation "' pat <- c ;; k" := (bind c (fun x => match x with pat => k end))
  (at level 61, pat pattern, c at next level, right associativity).
Local Notation "c ;;; k" := (bind c (fun _ => k))
  (at level 61, right associativity).

Definition set_file {T} (m : string -> option T) (p : string) (v : T) : string -> option T :=
  fun q => if String.eqb q p then Some v else m q.

Definition is_some {T} (o : option T) : bool :=
  match o with Some _ => true | None => false end.

Definition path_exists (w : World) (p : string) : bool :=
  dirs w p || is_some (files w p) || is_some (pickles w p).

Definition with_rng (w : World) (g : RandomState) : World :=
  {| root := root w; summary := summary w; files := files w; pickles := pickles w;
     dirs := dirs w; glob_result := glob_result w; rng := g; stdout := stdout w |}.

(** The environment's answer to one effect, and the state after it. *)
Definition handle {X} (ev : event X) (w : World) : X * World :=
  match ev in event X return X * World with
  | GetRoot => (root w, w)
  | GetSummary => (summary w, w)
  | SetRoot loc =>
      (tt, {| root := loc; summary := summary w; files := files w; pickles := pickles w;
              dirs := dirs w; glob_result := glob_result w; rng := rng w; stdout := stdout w |})
  | SetSummary s =>
      (tt, {| root := root w; summary := s; files := files w; pickles := pickles w;
              dirs := dirs w; glob_result := glob_result w; rng := rng w; stdout := stdout w |})
  | Glob pattern => (glob_result w pattern, w)
  | PathExists p => (path_exists w p, w)
  | ReadFile p => (files w p, w)
  | PickleDump s p =>
      if dirs w (dirname p)
      then (Ok tt, {| root := root w; summary := summary w; files := files w;
                      pickles := set_file (pickles w) p s;
                      dirs := dirs w; glob_result := glob_result w; rng := rng w;
                      stdout := stdout w |})
      else (Err FileNotFoundError, w)
  | PickleLoad p =>
      (match pickles w p with
       | Some s => Ok s
       | None => if is_some (files w p) then Err UnpicklingError else Err FileNotFoundError
       end, w)
  | Print n p =>
      (tt, {| root := root w; summary := summary w; files := files w; pickles := pickles w;
              dirs := dirs w; glob_result := glob_result w; rng := rng w;
              stdout := stdout w ++ [(n, p)] |})
  | RandomRand => let (r, g) := random_rand (rng w) in (r, with_rng w g)
  | RandomRandint low high n =>
      let (r, g) := random_randint low high n (rng w) in (r, with_rng w g)
  | RandomShuffle z => let (r, g) := random_shuffle z (rng w) in (r, with_rng w g)
  end.

(** Running a program: the outcome and the state it leaves.  An exception
    leaves the state as it was when it was raised. *)
Fixpoint run {A} (p : Prog A) (w : World) : result A * World :=
  match p with
  | Ret a => (Ok a, w)
  | Raise e => (Err e, w)
  | Vis ev k => let (x, w') := handle ev w in run (k x) w'
  end.

(** ** The three functions of [data.py] *)

(** [np.memmap(fname, dtype=d, mode='r')] as a program. *)
Definition np_memmap (fname : string) (d : np_dtype) : Prog (ndarray Z) :=
  contents <- trigger (ReadFile fname) ;;
  lift (memmap contents d).

(** The body of the [for n, dfile in enumerate(dfiles)] loop of
    [create_summary], on the dictionary built so far. *)
Definition summarize_one (valid_ratio : F) (acc : Summary) (item : Z * string) : Prog Summary :=
  let (n, dfile) := item in
  trigger (Print (n + 1) dfile) ;;;
  dat <- np_memmap dfile np_int16 ;;
  let sid := basename (dirname dfile) in
  r <- trigger RandomRand ;;
  let group := if fgt r valid_ratio then "train" else "valid" in
  let positive := filter (fun v => 0 <? v) (data dat) in
  lift (summary_append acc group
          {| studyid := sid; mean := np_mean positive; sd := np_std positive |}).

Fixpoint for_each {A S} (body : S -> A -> Prog S) (items : list A) (acc : S) : Prog S :=
  match items with
  | [] => Ret acc
  | x :: rest => acc' <- body acc x ;; for_each body rest acc'
  end.

(** [create_summary(root, valid_ratio)]. *)
Definition create_summary (root : string) (valid_ratio : F) : Prog unit :=
  dfiles <- trigger (Glob (root ++ "/*/dat.npy")) ;;
  summary <- for_each (summarize_one valid_ratio) (enumerate dfiles)
                      {| train := []; valid := [] |} ;;
  r <- trigger (PickleDump summary (root ++ "/data.pickle")) ;;
  lift r.

(** [[n for n, stats in enumerate(cohort) if stats['studyid'] == sid]]. *)
Definition find_indices (sid : string) (cohort : list StudyRecord) : list Z :=
  map fst (filter (fun p => String.eqb (studyid (snd p)) sid) (enumerate cohort)).

(** The [for mode in ['train', 'valid']] loop of [load].  It returns the
    value [mode] is left with and, when a cohort holds [sid], the index
    kept ([indices[0]]); [None] is [random] still being [True]. *)
Fixpoint search_cohorts (sid : string) (modes : list string) (mode : string)
  : Prog (string * option Z) :=
  match modes with
  | [] => Ret (mode, None)
  | m :: rest =>
      s <- trigger GetSummary ;;
      cohort <- lift (summary_get s m) ;;
      match find_indices sid cohort with
      | [] => search_cohorts sid rest m
      | i :: _ => Ret (m, Some i)
      end
  end.

(** What [load] returns: [(dats, lbls)] or [(dats, lbls, msks)]. *)
Record Batch : Type := mk_batch {
  dats : ndarray F;
  lbls : ndarray Z;
  msks : option (ndarray F)
}.

(** [a - m] and [a / s] with an [np.float64] scalar. *)
Definition sub_scalar (a : ndarray Z) (m : F) : ndarray F :=
  map_array (promote_types (dtype a) np_float64) (fun v => fsub (of_int v) m) a.

Definition div_scalar (a : ndarray F) (s : F) : ndarray F :=
  map_array (promote_types (dtype a) np_float64) (fun v => fdiv v s) a.

(** [a.astype('float32')] of a boolean array. *)
Definition astype_float32 (a : ndarray bool) : ndarray F :=
  map_array np_float32 of_bool a.

(** Line 110: the slice indices with a positive label sum when the coin
    exceeds 0.5, those with a zero sum otherwise. *)
Definition candidates (lbl : ndarray Z) (coin : F) : list Z :=
  let reduce_sum := sum_axes123 lbl in
  if fgt coin (of_Q (1 # 2))
  then nonzero (map (fun s => 0 <? s) reduce_sum)
  else nonzero (map (fun s => s =? 0) reduce_sum).

(** The stratified choice of a slice (the [if random:] block): the
    candidates are shuffled and the first is taken. *)
Definition draw_slice (lbl : ndarray Z) : Prog Z :=
  coin <- trigger RandomRand ;;
  z <- trigger (RandomShuffle (candidates lbl coin)) ;;
  match z with
  | [] => Raise IndexError
  | z0 :: _ => Ret z0
  end.

Definition Slice : Type := ndarray F * ndarray Z * ndarray bool.

(** Lines 114-116 for one slice index: the mask of channel 0, the
    normalised input and the label. *)
Definition take_slice (stats : StudyRecord) (dat lbl : ndarray Z) (z : Z) : result Slice :=
  result_bind (getitem0_first_channel dat z) (fun msk =>
  result_bind (getitem0 dat z) (fun slice =>
  result_bind (getitem0 lbl z) (fun label =>
  Ok (div_scalar (sub_scalar slice (mean stats)) (sd stats), label, gt0 msk)))).

Definition Slices : Type := list (ndarray F) * list (ndarray Z) * list (ndarray bool).

(** The three [append]s. *)
Definition append_slice (acc : Slices) (x : Slice) : Slices :=
  let '(dats, lbls, msks) := acc in
  let '(d, l, m) := x in
  ((dats ++ [d])%list, (lbls ++ [l])%list, (msks ++ [m])%list).

(** The body of [for ind in indices].  [fixed] is the caller's [z] when
    [random] is [False], and [None] when it is [True]. *)
Definition load_one (mode : string) (fixed : option Z) (acc : Slices) (ind : Z) : Prog Slices :=
  s <- trigger GetSummary ;;
  cohort <- lift (summary_get s mode) ;;
  stats <- lift (list_getitem cohort ind) ;;
  r <- trigger GetRoot ;;
  dat <- np_memmap (r ++ "/" ++ studyid stats ++ "/dat.npy") np_int16 ;;
  dat <- lift (reshape_infer dat [240; 240; 4]) ;;
  r <- trigger GetRoot ;;
  lbl <- np_memmap (r ++ "/" ++ studyid stats ++ "/lbl.npy") np_uint8 ;;
  lbl <- lift (reshape_infer lbl [240; 240; 1]) ;;
  z <- match fixed with
       | None => draw_slice lbl
       | Some z => Ret z
       end ;;
  x <- lift (take_slice stats dat lbl z) ;;
  Ret (append_slice acc x).

(** Lines 118-126 on the three lists. *)
Definition finish (acc : Slices) (return_mask : bool) : result Batch :=
  let '(dats, lbls, msks) := acc in
  result_bind (stack dats) (fun dats =>
  result_bind (stack lbls) (fun lbls =>
  result_bind (stack msks) (fun msks =>
  let msks := astype_float32 msks in
  Ok (if return_mask
      then {| dats := dats; lbls := lbls; msks := Some msks |}
      else {| dats := dats; lbls := lbls; msks := None |})))).

(** [load(mode, n, sid, z, return_mask)]. *)
Definition load (mode : string) (n : Z) (sid : option string) (z : option Z)
  (return_mask : bool) : Prog Batch :=
  ' (mode, found) <-
      match sid, z with
      | Some sid, Some _ => search_cohorts sid ["train"; "valid"] mode
      | _, _ => Ret (mode, None)
      end ;;
  ' (indices, fixed) <-
      match found with
      | Some i => Ret ([i], z)
      | None =>
          s <- trigger GetSummary ;;
          cohort <- lift (summary_get s mode) ;;
          r <- trigger (RandomRandint 0 (len cohort) n) ;;
          indices <- lift r ;;
          Ret (indices, None)
      end ;;
  acc <- for_each (load_one mode fixed) indices ([], [], []) ;;
  lift (finish acc return_mask).

(** [set_root(loc)]; [None] is the default argument. *)
Definition set_root (loc : option string) : Prog unit :=
  loc <- match loc with
         | Some l => Ret l
         | None =>
             e <- trigger (PathExists "/data/brats/npy") ;;
             Ret (if e then "/data/brats/npy" else "../data")
         end ;;
  trigger (SetRoot loc) ;;;
  r <- trigger GetRoot ;;
  let summary_file := r ++ "/data.pickle" in
  e <- trigger (PathExists summary_file) ;;
  (if e then Ret tt
   else r <- trigger GetRoot ;; create_summary r (of_Q (2 # 10))) ;;;
  s <- trigger (PickleLoad summary_file) ;;
  s <- lift s ;;
  trigger (SetSummary s).

(** ** Pure views of what a call reads

    They name, for the statements below, the values the loader computes
    from the state: the volumes it opens and the slices it cuts. *)

(** The two volumes of a study as lines 99-105 open them. *)
Definition dat_volume (w : World) (stats : StudyRecord) : result (ndarray Z) :=
  result_bind (memmap (files w (root w ++ "/" ++ studyid stats ++ "/dat.npy")) np_int16)
              (fun a => reshape_infer a [240; 240; 4]).

Definition lbl_volume (w : World) (stats : StudyRecord) : result (ndarray Z) :=
  result_bind (memmap (files w (root w ++ "/" ++ studyid stats ++ "/lbl.npy")) np_uint8)
              (fun a => reshape_infer a [240; 240; 1]).

(** The record an iteration works on: [summary[mode][ind]]. *)
Definition lookup (w : World) (mode : string) (ind : Z) : result StudyRecord :=
  result_bind (summary_get (summary w) mode) (fun cohort => list_getitem cohort ind).

(** What one chosen (study, slice) pair contributes. *)
Definition fetch (w : World) (pick : StudyRecord * Z) : result Slice :=
  result_bind (dat_volume w (fst pick)) (fun dat =>
  result_bind (lbl_volume w (fst pick)) (fun lbl =>
  take_slice (fst pick) dat lbl (snd pick))).

Fixpoint fetch_all (w : World) (picks : list (StudyRecord * Z)) (acc : Slices) : result Slices :=
  match picks with
  | [] => Ok acc
  | p :: rest => result_bind (fetch w p) (fun x => fetch_all w rest (append_slice acc x))
  end.

(** The batch made of the given pairs, in order. *)
Definition batch_of (w : World) (picks : list (StudyRecord * Z)) (return_mask : bool)
  : result Batch :=
  result_bind (fetch_all w picks ([], [], [])) (fun acc => finish acc return_mask).

Definition has_id (sid : string) (r : StudyRecord) : bool := String.eqb (studyid r) sid.

(** The first record named [sid], looking in [train] before [valid]. *)
Definition first_match (s : Summary) (sid : string) : option StudyRecord :=
  match find (has_id sid) (train s) with
  | Some r => Some r
  | None => find (has_id sid) (valid s)
  end.

(** The raw values of slice [z] of a volume ([[]] when there is none). *)
Definition raw_slice (vol : result (ndarray Z)) (z : Z) : list Z :=
  match result_bind vol (fun a => getitem0 a z) with
  | Ok s => data s
  | Err _ => []
  end.

(** The number of slices of a volume. *)
Definition n_slices (vol : result (ndarray Z)) : option Z :=
  match vol with
  | Ok a => hd_error (shape a)
  | Err _ => None
  end.

(** [(v - m) / s] on every raw value, with the scalars of one study. *)
Definition normalize (r : StudyRecord) (v : list Z) : list F :=
  map (fun x => fdiv (fsub (of_int x) (mean r)) (sd r)) v.

(** [v[..., 0] > 0] as floats, for raw values with four channels. *)
Definition foreground (v : list Z) : list F :=
  map (fun x => of_bool (0 <? x)) (channel0 4 v).

(** The three arrays that one pair contributes, written out. *)
Definition input_of (w : World) (p : StudyRecord * Z) : ndarray F :=
  {| dtype := np_float64; shape := [240; 240; 4];
     data := normalize (fst p) (raw_slice (dat_volume w (fst p)) (snd p)) |}.

Definition label_of (w : World) (p : StudyRecord * Z) : ndarray Z :=
  {| dtype := np_uint8; shape := [240; 240; 1];
     data := raw_slice (lbl_volume w (fst p)) (snd p) |}.

Definition mask_of (w : World) (p : StudyRecord * Z) : ndarray bool :=
  {| dtype := np_bool; shape := [240; 240; 1];
     data := map (fun x => 0 <? x) (channel0 4 (raw_slice (dat_volume w (fst p)) (snd p))) |}.

(** The batch of the given pairs, written out: the slices of the pairs
    one after the other under a leading axis of their number. *)
Definition batch_written (w : World) (picks : list (StudyRecord * Z)) (return_mask : bool)
  : Batch :=
  {| dats := {| dtype := np_float64; shape := [len picks; 240; 240; 4];
                data := concat (map (fun p => data (input_of w p)) picks) |};
     lbls := {| dtype := np_uint8; shape := [len picks; 240; 240; 1];
                data := concat (map (fun p => data (label_of w p)) picks) |};
     msks := if return_mask
             then Some {| dtype := np_float32; shape := [len picks; 240; 240; 1];
                          data := concat (map (fun p =>
                                    foreground (raw_slice (dat_volume w (fst p)) (snd p)))
                                    picks) |}
             else None |}.

(** How the slice of a pair was chosen: it is the caller's in exact mode,
    and one of the candidates of some coin in random mode. *)
Definition chosen (w : World) (fixed : option Z) (p : StudyRecord * Z) : Prop :=
  match fixed with
  | Some z => snd p = z
  | None => exists lbl coin, lbl_volume w (fst p) = Ok lbl /\ In (snd p) (candidates lbl coin)
  end.

(** The candidates a coin selects in the label volume of a study. *)
Definition candidates_at (w : World) (r : StudyRecord) (coin : F) : result (list Z) :=
  result_bind (lbl_volume w r) (fun lbl => Ok (candidates lbl coin)).

(** The effects that leave the globals, the files and the output alone:
    reads, and draws from the generator. *)
Definition reads_only {X} (ev : event X) : bool :=
  match ev with
  | SetRoot _ | SetSummary _ | PickleDump _ _ | Print _ _ => false
  | _ => true
  end.

(** A program all of whose effects are of that kind. *)
Inductive quiet {A} : Prog A -> Prop :=
| quiet_ret (a : A) : quiet (Ret a)
| quiet_raise (e : exn) : quiet (Raise e)
| quiet_vis {X} (ev : event X) (k : X -> Prog A) :
    reads_only ev = true -> (forall x, quiet (k x)) -> quiet (Vis ev k).

(** A slice of labels with at least one positive voxel. *)
Definition has_positive (l : list Z) : Prop := exists v, In v l /\ 0 < v.

(** ** Further views, for the statements on [set_root] and [create_summary] *)

(** A program all of whose effects pass the test [ok]. *)
Inductive only (ok : forall X, event X -> bool) {A} : Prog A -> Prop :=
| only_ret (a : A) : only ok (Ret a)
| only_raise (e : exn) : only ok (Raise e)
| only_vis {X} (ev : event X) (k : X -> Prog A) :
    ok X ev = true -> (forall x, only ok (k x)) -> only ok (Vis ev k).

(** The effects that assign neither global. *)
Definition assigns_no_global (X : Type) (ev : event X) : bool :=
  match ev with
  | SetRoot _ | SetSummary _ => false
  | _ => true
  end.

(** The effects that neither assign a global nor write a file. *)
Definition writes_nothing (X : Type) (ev : event X) : bool :=
  match ev with
  | SetRoot _ | SetSummary _ | PickleDump _ _ => false
  | _ => true
  end.

(** The state with one component replaced. *)
Definition with_root (w : World) (loc : string) : World :=
  {| root := loc; summary := summary w; files := files w; pickles := pickles w;
     dirs := dirs w; glob_result := glob_result w; rng := rng w; stdout := stdout w |}.

Definition with_summary (w : World) (s : Summary) : World :=
  {| root := root w; summary := s; files := files w; pickles := pickles w;
     dirs := dirs w; glob_result := glob_result w; rng := rng w; stdout := stdout w |}.

Definition with_pickle (w : World) (p : string) (s : Summary) : World :=
  {| root := root w; summary := summary w; files := files w;
     pickles := set_file (pickles w) p s;
     dirs := dirs w; glob_result := glob_result w; rng := rng w; stdout := stdout w |}.

(** The location [set_root(loc)] settles on (lines 135-136). *)
Definition resolve_root (w : World) (loc : option string) : string :=
  match loc with
  | Some l => l
  | None => if path_exists w "/data/brats/npy" then "/data/brats/npy" else "../data"
  end.

(** A name without a slash: a directory entry. *)
Definition no_slash (s : string) : bool :=
  forallb (fun c => negb (is_slash c)) (list_ascii_of_string s).

(** What the effects that write nothing leave alone. *)
Definition same_disk (w w' : World) : Prop :=
  globals w' = globals w /\ files w' = files w /\ pickles w' = pickles w /\
  dirs w' = dirs w /\ glob_result w' = glob_result w.

(** ** The selection of a call

    The pairs (study record, slice index) a call works on, as a function
    of the state it starts in. *)

(** Lines 110-112 on a generator state: the coin, the shuffle of the
    candidates the coin selects, the first element. *)
Definition drawn_slice (lbl : ndarray Z) (g : RandomState) : option Z :=
  let (coin, g1) := random_rand g in
  hd_error (fst (random_shuffle (candidates lbl coin) g1)).

(** Random mode: the indices are those [randint] draws from the state of
    the call; the pair of index [k] is the record [summary[mode][ind]] of
    the [k]-th index with the slice drawn from the state [wk] that the
    [k] iterations before it have left. *)
Definition random_selection (w : World) (mode : string) (n : Z)
  (picks : list (StudyRecord * Z)) : Prop :=
  exists cohort inds g,
    summary_get (summary w) mode = Ok cohort /\
    random_randint 0 (len cohort) n (rng w) = (Ok inds, g) /\
    len picks = n /\
    forall k ind, nth_error inds k = Some ind ->
      exists r zk lbl acc wk,
        nth_error picks k = Some (r, zk) /\
        list_getitem cohort ind = Ok r /\
        run (for_each (load_one mode None) (firstn k inds) ([], [], [])) (with_rng w g)
          = (Ok acc, wk) /\
        lbl_volume w r = Ok lbl /\
        drawn_slice lbl (rng wk) = Some zk.

(** Either mode: the one pair (first match, [z]) when [sid] and [z] are
    given and [sid] is found; the random selection otherwise, from the
    cohort [mode] names when the loop is reached ('valid' after a search
    that found nothing). *)
Definition is_selection (w : World) (mode : string) (n : Z) (sid : option string)
  (z : option Z) (picks : list (StudyRecord * Z)) : Prop :=
  match sid, z with
  | Some s, Some z0 =>
      match first_match (summary w) s with
      | Some r => picks = [(r, z0)]
      | None => random_selection w "valid" n picks
      end
  | _, _ => random_selection w mode n picks
  end.

End Loader.

(** ** An executable instance of the floats

    Rationals extended with the two infinities and not-a-number: exact
    where IEEE arithmetic rounds, and with one zero, but with the IEEE
    results of a division by zero.  It is used to run the model. *)

Inductive xq : Type :=
| Fin (q : Q)
| PInf
| NInf
| NaN.

Definition q_is_zero (q : Q) : bool := Qeq_bool q 0.
Definition q_pos (q : Q) : bool := negb (Qle_bool q 0).

Definition xq_sub (a b : xq) : xq :=
  match a, b with
  | NaN, _ | _, NaN => NaN
  | Fin x, Fin y => Fin (Qred (x - y))
  | PInf, PInf | NInf, NInf => NaN
  | PInf, _ | _, NInf => PInf
  | NInf, _ | _, PInf => NInf
  end.

Definition xq_div (a b : xq) : xq :=
  match a, b with
  | NaN, _ | _, NaN => NaN
  | Fin x, Fin y =>
      if q_is_zero y
      then (if q_is_zero x then NaN else if q_pos x then PInf else NInf)
      else Fin (Qred (x / y))
  | Fin _, (PInf | NInf) => Fin 0
  | (PInf | NInf), (PInf | NInf) => NaN
  | PInf, Fin y => if q_pos y || q_is_zero y then PInf else NInf
  | NInf, Fin y => if q_pos y || q_is_zero y then NInf else PInf
  end.

Definition xq_gt (a b : xq) : bool :=
  match a, b with
  | NaN, _ | _, NaN => false
  | Fin x, Fin y => negb (Qle_bool x y)
  | PInf, PInf | NInf, NInf => false
  | PInf, _ | _, NInf => true
  | NInf, _ | _, PInf => false
  end.

Definition q_mean (l : list Z) : Q := inject_Z (sum_list l) / inject_Z (len l).

(** The square root of a non-negative rational, rounded down to a
    multiple of 2^-26. *)
Definition q_sqrt (q : Q) : Q :=
  Qred (Z.sqrt (Qnum q * 2 ^ 52 / Z.pos (Qden q)) # 2 ^ 26).

Definition q_var (l : list Z) : Q :=
  let m := q_mean l in
  fold_right Qplus 0%Q (map (fun v => (inject_Z v - m) * (inject_Z v - m))%Q l) / inject_Z (len l).

Definition xq_mean (l : list Z) : xq :=
  match l with [] => NaN | _ => Fin (Qred (q_mean l)) end.

Definition xq_std (l : list Z) : xq :=
  match l with [] => NaN | _ => Fin (q_sqrt (Qred (q_var l))) end.

Definition xq_random_sample (r : N) : xq :=
  Fin (Qred (Z.of_N (r mod 2 ^ 53) # 2 ^ 53)).

#[export] Instance XQ : NumpyFloat xq := {|
  of_int := fun z => Fin (inject_Z z);
  of_Q := fun q => Fin (Qred q);
  of_bool := fun b => if b then Fin 1 else Fin 0;
  fsub := xq_sub;
  fdiv := xq_div;
  fgt := xq_gt;
  np_mean := xq_mean;
  np_std := xq_std;
  random_sample := xq_random_sample
|}.

Definition is_finite (x : xq) : bool :=
  match x with Fin _ => true | _ => false end.

(** ** Two small studies on disk

    [s0] has two slices, the second with one labelled voxel; [s1] has one
    slice, a single positive voxel and no label. *)

Definition zeros (n : Z) : list byte := repeat x00 (Z.to_nat n).

Definition s0_dat : list byte :=
  ([x03; x00; x00; x00; xff; xff; x07; x00] ++ zeros (460800 - 8)) ++
  ([x05; x00; x01; x00; x00; x80; x00; x00] ++ zeros (460800 - 8)).

Definition s0_lbl : list byte := zeros 57600 ++ (x01 :: zeros 57599).

Definition s1_dat : list byte := [x05; x00] ++ zeros (460800 - 2).

Definition s1_lbl : list byte := zeros 57600.

Definition disk (p : string) : option (list byte) :=
  if String.eqb p "../data/s0/dat.npy" then Some s0_dat
  else if String.eqb p "../data/s0/lbl.npy" then Some s0_lbl
  else if String.eqb p "../data/s1/dat.npy" then Some s1_dat
  else if String.eqb p "../data/s1/lbl.npy" then Some s1_lbl
  else None.

Definition rec_s0 : @StudyRecord xq := {| studyid := "s0"; mean := Fin 1; sd := Fin 2 |}.

Definition rec_s1 : @StudyRecord xq := {| studyid := "s1"; mean := Fin 5; sd := Fin 0 |}.

(** A generator whose every raw output is [r]. *)
Definition constant_rng (r : N) : RandomState := {| raw := fun _ => r; pos := 0 |}.

(** A loaded module: [s0] in the training cohort, [s1] in the validation
    cohort, every coin below 0.5. *)
Definition w_demo : @World xq :=
  {| root := "../data";
     summary := {| train := [rec_s0]; valid := [rec_s1] |};
     files := disk;
     pickles := fun _ => None;
     dirs := fun p => String.eqb p "../data";
     glob_result := fun _ => [];
     rng := constant_rng 0;
     stdout := [] |}.

(** The same with every coin above 0.5. *)
Definition w_high : @World xq := with_rng w_demo (constant_rng (2 ^ 53 - 1)).

(** A root holding the study [s1] only and no summary file yet; every
    coin is 0.5. *)
Definition w_fresh : @World xq :=
  {| root := "";
     summary := {| train := []; valid := [] |};
     files := disk;
     pickles := fun _ => None;
     dirs := fun p => String.eqb p "../data";
     glob_result := fun p => if String.eqb p "../data/*/dat.npy"
                             then ["../data/s1/dat.npy"] else [];
     rng := constant_rng (2 ^ 52);
     stdout := [] |}.

(** The module as [set_root("../data")] leaves it on the fresh root: the
    summary is built, written and loaded. *)
Definition w_built : @World xq := snd (run (set_root (Some "../data")) w_fresh).

(** ** Further states, for the edge cases *)

(** The demo module on a damaged disk: the input volume of [s0] is cut
    short and the files of [s1] are gone. *)
Definition damaged_disk (p : string) : option (list byte) :=
  if String.eqb p "../data/s0/dat.npy" then Some [x01; x00; x02; x00]
  else if String.eqb p "../data/s0/lbl.npy" then Some s0_lbl
  else None.

Definition w_damaged : @World xq :=
  {| root := "../data";
     summary := {| train := [rec_s0]; valid := [rec_s1] |};
     files := damaged_disk;
     pickles := fun _ => None;
     dirs := fun p => String.eqb p "../data";
     glob_result := fun _ => [];
     rng := constant_rng 0;
     stdout := [] |}.

(** A module pointing nowhere yet, beside a root whose summary file holds
    the two demo records. *)
Definition w_pickled : @World xq :=
  {| root := "";
     summary := {| train := []; valid := [] |};
     files := disk;
     pickles := fun p => if String.eqb p "../data/data.pickle"
                         then Some {| train := [rec_s0]; valid := [rec_s1] |} else None;
     dirs := fun p => String.eqb p "../data";
     glob_result := fun _ => [];
     rng := constant_rng 0;
     stdout := [] |}.

(** The demo module with no directory and no file at all around it. *)
Definition w_void : @World xq :=
  {| root := "../data";
     summary := {| train := [rec_s0]; valid := [rec_s1] |};
     files := fun _ => None;
     pickles := fun _ => None;
     dirs := fun _ => false;
     glob_result := fun _ => [];
     rng := constant_rng 0;
     stdout := [] |}.

(** * Properties *)

Unset Implicit Arguments.

Section LoaderFacts.

Context {F : Type} {NF : NumpyFloat F}.

#[local] Abbreviation World := (@World F).
#[local] Abbreviation Summary := (@Summary F).
#[local] Abbreviation StudyRecord := (@StudyRecord F).
#[local] Abbreviation Prog := (@Prog F).
#[local] Abbreviation event := (@event F).

(** ** Running programs *)

Lemma run_bind {A B} (p : Prog A) (f : A -> Prog B) (w : World) :
  run (bind p f) w =
  match run p w with
  | (Ok a, w') => run (f a) w'
  | (Err e, w') => (Err e, w')
  end.
Proof.
  revert w. induction p as [a | e | X ev k IH]; intros w; simpl; auto.
  destruct (handle ev w) as [x w']. apply IH.
Qed.

Lemma run_lift {A} (r : result A) (w : World) : run (lift r) w = (r, w).
Proof. destruct r; reflexivity. Qed.

Lemma run_for_each_app {A S} (body : S -> A -> Prog S) (l1 l2 : list A) (acc : S) (w : World) :
  run (for_each body (l1 ++ l2) acc) w =
  match run (for_each body l1 acc) w with
  | (Ok acc', w') => run (for_each body l2 acc') w'
  | (Err e, w') => (Err e, w')
  end.
Proof.
  revert acc w. induction l1 as [| x l1 IH]; intros acc w; simpl; auto.
  rewrite !run_bind. destruct (run (body acc x) w) as [[acc' | e] w']; auto.
Qed.


Lemma run_for_each_cons {A S} (body : S -> A -> Prog S) (x : A) (l : list A) (acc : S)
  (w : World) :
  run (for_each body (x :: l) acc) w =
  match run (body acc x) w with
  | (Ok acc', w') => run (for_each body l acc') w'
  | (Err e, w') => (Err e, w')
  end.
Proof. cbn [for_each]. apply run_bind. Qed.

(** ** The search of exact mode *)

Lemma find_indices_from (sid : string) (l : list StudyRecord) (k : Z) :
  match map fst (filter (fun p => String.eqb (studyid (snd p)) sid) (enumerate_from k l)) with
  | [] => find (has_id sid) l = None
  | i :: _ => exists r, find (has_id sid) l = Some r /\
                        k <= i < k + len l /\ nth_error l (Z.to_nat (i - k)) = Some r
  end.
Proof.
  revert k. induction l as [| x l IH]; intros k; simpl; auto.
  unfold has_id at 1 3. destruct (String.eqb (studyid x) sid) eqn:E; simpl.
  - exists x. unfold len. simpl length. rewrite Z.sub_diag. simpl. repeat split; lia.
  - specialize (IH (k + 1)).
    destruct (map fst (filter _ (enumerate_from (k + 1) l))) as [| i rest]; auto.
    destruct IH as (r & Hf & Hi & Hn). exists r. unfold len in *. simpl length.
    repeat split; try lia; auto.
    replace (Z.to_nat (i - k)) with (S (Z.to_nat (i - (k + 1)))) by lia. exact Hn.
Qed.

Lemma find_indices_none (sid : string) (l : list StudyRecord) :
  find_indices sid l = [] -> find (has_id sid) l = None.
Proof.
  intros H. pose proof (find_indices_from sid l 0) as P.
  unfold find_indices, enumerate in H. rewrite H in P. exact P.
Qed.

Lemma find_indices_some (sid : string) (l : list StudyRecord) (i : Z) (rest : list Z) :
  find_indices sid l = i :: rest ->
  exists r, find (has_id sid) l = Some r /\ list_getitem l i = Ok r.
Proof.
  intros H. pose proof (find_indices_from sid l 0) as P.
  unfold find_indices, enumerate in H. rewrite H in P.
  destruct P as (r & Hf & Hi & Hn). exists r. split; auto.
  unfold list_getitem, normalize_index.
  replace ((0 <=? i) && (i <? len l)) with true
    by (symmetry; apply andb_true_iff; split; [apply Z.leb_le | apply Z.ltb_lt]; lia).
  rewrite Z.sub_0_r in Hn. rewrite Hn. reflexivity.
Qed.

Lemma find_none_indices (sid : string) (l : list StudyRecord) :
  find (has_id sid) l = None -> find_indices sid l = [].
Proof.
  intros H. destruct (find_indices sid l) as [| i rest] eqn:E; auto.
  apply find_indices_some in E. destruct E as (r & Hf & _). congruence.
Qed.

(** Where the search loop of exact mode ends: the cohort [mode] is left
    naming, and the record found there with its index. *)
Lemma run_search_cohorts (w : World) (sid mode : string) :
  run (search_cohorts sid ["train"; "valid"] mode) w =
  (Ok (match find_indices sid (train (summary w)) with
       | i :: _ => ("train", Some i)
       | [] => match find_indices sid (valid (summary w)) with
               | j :: _ => ("valid", Some j)
               | [] => ("valid", None)
               end
       end), w).
Proof.
  simpl. change (summary_get (summary w) "train") with (Ok (train (summary w))). simpl.
  destruct (find_indices sid (train (summary w))) as [| i ri]; simpl; auto.
  change (summary_get (summary w) "valid") with (Ok (valid (summary w))). simpl.
  destruct (find_indices sid (valid (summary w))); reflexivity.
Qed.

(** ** One iteration of the loop *)

Lemma run_np_memmap (fname : string) (d : np_dtype) (w : World) :
  run (np_memmap fname d) w = (memmap (files w fname) d, w).
Proof. unfold np_memmap. simpl. apply run_lift. Qed.

Lemma with_rng_id (w : World) : with_rng w (rng w) = w.
Proof. destruct w; reflexivity. Qed.

(** The stratified draw: one coin, one shuffle, the head of the result. *)
Lemma run_draw_slice (lbl : ndarray Z) (w : World) :
  run (draw_slice lbl) w =
  (let (coin, g1) := random_rand (rng w) in
   let (zs, g2) := random_shuffle (candidates lbl coin) g1 in
   (match zs with [] => Err IndexError | z0 :: _ => Ok z0 end, with_rng w g2)).
Proof.
  unfold draw_slice. cbn [bind trigger run handle].
  destruct (random_rand (rng w)) as [coin g1]. cbn [rng with_rng].
  destruct (random_shuffle (candidates lbl coin) g1) as [zs g2].
  destruct zs; reflexivity.
Qed.

#[local] Opaque draw_slice.

(** Up to the choice of the slice, an iteration reads the summary, the
    root and the two files, and changes nothing. *)
Lemma run_load_one (w : World) (mode : string) (fixed : option Z) (acc : Slices) (ind : Z) :
  run (load_one mode fixed acc ind) w =
  match lookup w mode ind with
  | Err e => (Err e, w)
  | Ok r =>
      match dat_volume w r, lbl_volume w r with
      | Ok dat, Ok lbl =>
          match fixed with
          | Some z => (result_bind (take_slice r dat lbl z) (fun x => Ok (append_slice acc x)), w)
          | None =>
              match run (draw_slice lbl) w with
              | (Ok z, w') =>
                  (result_bind (take_slice r dat lbl z) (fun x => Ok (append_slice acc x)), w')
              | (Err e, w') => (Err e, w')
              end
          end
      | Err e, _ => (Err e, w)
      | Ok _, Err e => (Err e, w)
      end
  end.
Proof.
  unfold load_one, lookup, dat_volume, lbl_volume. simpl.
  destruct (summary_get (summary w) mode) as [cohort | e]; simpl; auto.
  destruct (list_getitem cohort ind) as [r | e]; simpl; auto.
  destruct (memmap (files w _) np_int16) as [d0 | e]; simpl; auto.
  destruct (reshape_infer d0 _) as [dat | e]; simpl; auto.
  destruct (memmap (files w _) np_uint8) as [l0 | e]; simpl; auto.
  destruct (reshape_infer l0 _) as [lbl | e]; simpl; auto.
  destruct fixed as [z |].
  - simpl. destruct (take_slice r dat lbl z); reflexivity.
  - rewrite run_bind. destruct (run (draw_slice lbl) w) as [[z | e] w']; auto.
    rewrite run_bind, run_lift. destruct (take_slice r dat lbl z); reflexivity.
Qed.

Lemma run_load_one_fixed (w : World) (mode : string) (z : Z) (acc : Slices)
  (ind : Z) (cohort : list StudyRecord) (r : StudyRecord) :
  summary_get (summary w) mode = Ok cohort ->
  list_getitem cohort ind = Ok r ->
  run (load_one mode (Some z) acc ind) w =
  (result_bind (fetch w (r, z)) (fun x => Ok (append_slice acc x)), w).
Proof.
  intros Hc Hr. rewrite run_load_one. unfold lookup. rewrite Hc. cbn [result_bind].
  rewrite Hr. unfold fetch. simpl.
  destruct (dat_volume w r); auto. destruct (lbl_volume w r); auto.
Qed.

(** ** Exact mode *)

(** When some cohort holds [sid], [load(mode, n, sid, z)] is the batch of
    the one pair (first match, z); nothing is drawn and nothing changes. *)
Lemma load_exact (w : World) (mode : string) (n : Z) (sid : string) (z : Z)
  (return_mask : bool) (r : StudyRecord) :
  first_match (summary w) sid = Some r ->
  run (load mode n (Some sid) (Some z) return_mask) w = (batch_of w [(r, z)] return_mask, w).
Proof.
  intros Hm. unfold load. rewrite run_bind, run_search_cohorts.
  unfold first_match in Hm.
  assert (Hloc : exists m i cohort,
    match find_indices sid (train (summary w)) with
    | i :: _ => ("train", Some i)
    | [] => match find_indices sid (valid (summary w)) with
            | j :: _ => ("valid", Some j)
            | [] => ("valid", None)
            end
    end = (m, Some i) /\ summary_get (summary w) m = Ok cohort /\ list_getitem cohort i = Ok r).
  { destruct (find_indices sid (train (summary w))) as [| i ri] eqn:Et.
    - apply find_indices_none in Et. rewrite Et in Hm.
      destruct (find_indices sid (valid (summary w))) as [| j rj] eqn:Ev.
      + apply find_indices_none in Ev. congruence.
      + apply find_indices_some in Ev. destruct Ev as (r' & Hf & Hg).
        exists "valid", j, (valid (summary w)). repeat split; auto. congruence.
    - apply find_indices_some in Et. destruct Et as (r' & Hf & Hg). rewrite Hf in Hm.
      exists "train", i, (train (summary w)). repeat split; auto. congruence. }
  destruct Hloc as (m & i & cohort & -> & Hc & Hr).
  cbn [bind]. rewrite run_bind, run_for_each_cons.
  rewrite (run_load_one_fixed w m z _ i cohort r Hc Hr).
  unfold batch_of. cbn [fetch_all]. destruct (fetch w (r, z)) as [x |]; cbn; auto.
  apply run_lift.
Qed.

(** ** Shapes and contents of the arrays *)

Lemma memmap_ok (c : option (list byte)) (d : np_dtype) (a : ndarray Z) :
  memmap c d = Ok a ->
  exists bs, c = Some bs /\ dtype a = d /\ shape a = [len (data a)] /\ data a = decode d bs.
Proof.
  unfold memmap. destruct c as [bs |]; try discriminate.
  destruct (len bs =? 0); try discriminate.
  destruct (negb (len bs mod itemsize d =? 0)); try discriminate.
  intros H. inversion H; subst; clear H. exists bs. simpl. auto.
Qed.

Lemma reshape_infer_ok {T} (a b : ndarray T) (dims : list Z) :
  reshape_infer a dims = Ok b ->
  dtype b = dtype a /\ data b = data a /\
  shape b = len (data a) / prod_shape dims :: dims /\
  0 < prod_shape dims /\
  len (data a) = len (data a) / prod_shape dims * prod_shape dims.
Proof.
  unfold reshape_infer.
  destruct ((0 <? prod_shape dims) && (len (data a) mod prod_shape dims =? 0)) eqn:E;
    try discriminate.
  intros H. inversion H; subst; clear H. simpl.
  apply andb_true_iff in E. destruct E as [E1 E2].
  apply Z.ltb_lt in E1. apply Z.eqb_eq in E2.
  repeat split; auto.
  rewrite Z.mul_comm. apply Z.div_exact; lia.
Qed.

Lemma normalize_index_range (z n i : Z) :
  normalize_index z n = Some i -> 0 <= i < n /\ (i = z \/ i = z + n).
Proof.
  unfold normalize_index.
  destruct ((0 <=? z) && (z <? n)) eqn:E1.
  - intros H; inversion H; subst. apply andb_true_iff in E1. lia.
  - destruct ((- n <=? z) && (z <? 0)) eqn:E2; try discriminate.
    intros H; inversion H; subst. apply andb_true_iff in E2. lia.
Qed.

Lemma getitem0_ok {T} (a s : ndarray T) (z : Z) :
  getitem0 a z = Ok s ->
  exists n rest i, shape a = n :: rest /\ normalize_index z n = Some i /\
    dtype s = dtype a /\ shape s = rest /\
    data s = sub_block (data a) i (prod_shape rest).
Proof.
  unfold getitem0. destruct (shape a) as [| n rest]; try discriminate.
  destruct (normalize_index z n) as [i |] eqn:E; try discriminate.
  intros H; inversion H; subst; clear H. exists n, rest, i. simpl. auto.
Qed.

Lemma sub_block_length {T} (l : list T) (i size n : Z) :
  0 <= i < n -> 0 <= size -> len l = n * size ->
  len (sub_block l i size) = size.
Proof.
  intros Hi Hs Hl. unfold sub_block, len in *.
  rewrite length_firstn, length_skipn. nia.
Qed.

(** A study's input volume is an int16 array of shape (S, 240, 240, 4). *)
Lemma dat_volume_ok (w : World) (r : StudyRecord) (dat : ndarray Z) :
  dat_volume w r = Ok dat ->
  dtype dat = np_int16 /\
  exists S, shape dat = [S; 240; 240; 4] /\ len (data dat) = S * 230400.
Proof.
  unfold dat_volume. destruct (memmap _ np_int16) as [a |] eqn:E; try discriminate.
  cbn [result_bind]. intros H.
  apply memmap_ok in E. destruct E as (bs & _ & Hd & _ & _).
  apply reshape_infer_ok in H. destruct H as (H1 & H2 & H3 & _ & H5).
  split; [congruence |].
  exists (len (data a) / 230400). rewrite H2. split; auto.
Qed.

(** A study's label volume is a uint8 array of shape (S, 240, 240, 1). *)
Lemma lbl_volume_ok (w : World) (r : StudyRecord) (lbl : ndarray Z) :
  lbl_volume w r = Ok lbl ->
  dtype lbl = np_uint8 /\
  (exists S, shape lbl = [S; 240; 240; 1] /\ len (data lbl) = S * 57600) /\
  Forall (fun v => 0 <= v < 256) (data lbl).
Proof.
  unfold lbl_volume. destruct (memmap _ np_uint8) as [a |] eqn:E; try discriminate.
  cbn [result_bind]. intros H.
  apply memmap_ok in E. destruct E as (bs & _ & Hd & _ & Hdata).
  apply reshape_infer_ok in H. destruct H as (H1 & H2 & H3 & _ & H5).
  split; [congruence |]. split.
  - exists (len (data a) / 57600). rewrite H2. split; auto.
  - rewrite H2, Hdata. simpl. unfold uint8_of_bytes. apply Forall_map, Forall_forall.
    intros b _. unfold byte_val. pose proof (Byte.to_N_bounded b). lia.
Qed.

Lemma Ok_inj {A} (a b : A) : Ok a = Ok b -> a = b.
Proof. intros H. injection H. auto. Qed.

Lemma Some_inj {A} (a b : A) : Some a = Some b -> a = b.
Proof. intros H. injection H. auto. Qed.

Lemma promote_float64 (d : np_dtype) : promote_types d np_float64 = np_float64.
Proof. destruct d; reflexivity. Qed.

(** What [take_slice] cuts out of two well-shaped volumes. *)
Lemma take_slice_ok (r : StudyRecord) (dat lbl : ndarray Z) (z S S' : Z) (x : Slice) :
  shape dat = [S; 240; 240; 4] -> shape lbl = [S'; 240; 240; 1] ->
  dtype lbl = np_uint8 ->
  take_slice r dat lbl z = Ok x ->
  exists i j, normalize_index z S = Some i /\ normalize_index z S' = Some j /\
    x = ({| dtype := np_float64; shape := [240; 240; 4];
            data := normalize r (sub_block (data dat) i 230400) |},
         {| dtype := np_uint8; shape := [240; 240; 1];
            data := sub_block (data lbl) j 57600 |},
         {| dtype := np_bool; shape := [240; 240; 1];
            data := map (fun v => 0 <? v) (channel0 4 (sub_block (data dat) i 230400)) |}).
Proof.
  intros Hd Hl Hu. unfold take_slice, getitem0_first_channel, getitem0.
  rewrite Hd, Hl.
  destruct (normalize_index z S) as [i |]; try discriminate.
  cbn [result_bind shape].
  destruct (normalize_index z S') as [j |]; try discriminate.
  cbn [result_bind].
  change (prod_shape [240; 240; 4]) with 230400.
  change (prod_shape [240; 240; 1]) with 57600.
  change (last_dim [240; 240; 4]) with 4.
  change (set_last_dim [240; 240; 4] (Z.min 1 4)) with [240; 240; 1].
  change (4 =? 0) with false. cbv iota.
  intros H. apply Ok_inj in H. subst x.
  exists i, j. repeat split.
  unfold div_scalar, sub_scalar, map_array, gt0, normalize. cbn [dtype shape data].
  rewrite !promote_float64, map_map, Hu. reflexivity.
Qed.

Lemma raw_slice_ok (vol : result (ndarray Z)) (a : ndarray Z) (z n i : Z) (rest : list Z) :
  vol = Ok a -> shape a = n :: rest -> normalize_index z n = Some i ->
  raw_slice vol z = sub_block (data a) i (prod_shape rest).
Proof.
  intros -> Hs Hi. unfold raw_slice, getitem0. cbn [result_bind]. rewrite Hs, Hi. reflexivity.
Qed.

(** A pair that can be fetched contributes the three arrays written out. *)
Lemma fetch_ok (w : World) (p : StudyRecord * Z) (x : Slice) :
  fetch w p = Ok x -> x = (input_of w p, label_of w p, mask_of w p).
Proof.
  unfold fetch. destruct (dat_volume w (fst p)) as [dat |] eqn:Ed; try discriminate.
  destruct (lbl_volume w (fst p)) as [lbl |] eqn:El; try discriminate.
  cbn [result_bind]. intros H.
  destruct (dat_volume_ok _ _ _ Ed) as (_ & S & Hs & _).
  destruct (lbl_volume_ok _ _ _ El) as (Hu & (S' & Hs' & _) & _).
  destruct (take_slice_ok _ _ _ _ _ _ _ Hs Hs' Hu H) as (i & j & Hi & Hj & ->).
  unfold input_of, label_of, mask_of. rewrite Ed, El.
  rewrite (raw_slice_ok (Ok dat) dat (snd p) S i [240; 240; 4]) by auto.
  rewrite (raw_slice_ok (Ok lbl) lbl (snd p) S' j [240; 240; 1]) by auto.
  reflexivity.
Qed.

Lemma fetch_all_ok (w : World) (picks : list (StudyRecord * Z)) (acc acc' : Slices) :
  fetch_all w picks acc = Ok acc' ->
  acc' = ((fst (fst acc) ++ map (input_of w) picks)%list,
          (snd (fst acc) ++ map (label_of w) picks)%list,
          (snd acc ++ map (mask_of w) picks)%list).
Proof.
  revert acc. induction picks as [| p picks IH]; intros [[ds ls] ms]; cbn [fetch_all].
  - intros H. apply Ok_inj in H. subst. cbn. rewrite !app_nil_r. reflexivity.
  - destruct (fetch w p) as [x |] eqn:E; try discriminate. cbn [result_bind].
    apply fetch_ok in E. subst x. intros H. apply IH in H. subst acc'.
    cbn. rewrite <- !app_assoc. reflexivity.
Qed.

Lemma fetch_all_succeeds (w : World) (picks : list (StudyRecord * Z)) (acc : Slices) :
  Forall (fun p => is_ok (fetch w p) = true) picks ->
  is_ok (fetch_all w picks acc) = true.
Proof.
  revert acc. induction picks as [| p picks IH]; intros acc H; cbn [fetch_all]; auto.
  inversion H as [| ? ? Hp Hrest]; subst.
  destruct (fetch w p) as [x |]; try discriminate. cbn [result_bind]. auto.
Qed.

Lemma fetch_all_each (w : World) (picks : list (StudyRecord * Z)) (acc acc' : Slices) :
  fetch_all w picks acc = Ok acc' -> Forall (fun p => is_ok (fetch w p) = true) picks.
Proof.
  revert acc. induction picks as [| p picks IH]; intros acc H; constructor.
  - cbn [fetch_all] in H. destruct (fetch w p); [reflexivity | discriminate].
  - cbn [fetch_all] in H. destruct (fetch w p); [| discriminate]. eapply IH; eauto.
Qed.

(** A pair that can be fetched names a whole slice of each volume. *)
Lemma fetch_lengths (w : World) (p : StudyRecord * Z) :
  is_ok (fetch w p) = true ->
  len (raw_slice (dat_volume w (fst p)) (snd p)) = 230400 /\
  len (raw_slice (lbl_volume w (fst p)) (snd p)) = 57600.
Proof.
  unfold fetch. destruct (dat_volume w (fst p)) as [dat |] eqn:Ed; try discriminate.
  destruct (lbl_volume w (fst p)) as [lbl |] eqn:El; try discriminate.
  cbn [result_bind]. intros H.
  destruct (dat_volume_ok _ _ _ Ed) as (_ & S & Hs & Hlen).
  destruct (lbl_volume_ok _ _ _ El) as (Hu & (S' & Hs' & Hlen') & _).
  destruct (take_slice (fst p) dat lbl (snd p)) as [x |] eqn:Et; try discriminate.
  destruct (take_slice_ok _ _ _ _ _ _ _ Hs Hs' Hu Et) as (i & j & Hi & Hj & _).
  rewrite (raw_slice_ok (Ok dat) dat (snd p) S i [240; 240; 4]) by auto.
  rewrite (raw_slice_ok (Ok lbl) lbl (snd p) S' j [240; 240; 1]) by auto.
  change (prod_shape [240; 240; 4]) with 230400.
  change (prod_shape [240; 240; 1]) with 57600.
  apply normalize_index_range in Hi. apply normalize_index_range in Hj.
  split; eapply sub_block_length; eauto; lia.
Qed.

Lemma list_eqb_refl (l : list Z) : list_eqb l l = true.
Proof.
  unfold list_eqb. rewrite Nat.eqb_refl. simpl.
  induction l as [| x l IH]; simpl; auto. rewrite Z.eqb_refl. exact IH.
Qed.

(** Stacking arrays of one shape and one dtype. *)
Lemma stack_uniform {T} (l : list (ndarray T)) (sh : list Z) (d : np_dtype) :
  l <> [] ->
  Forall (fun a => shape a = sh /\ dtype a = d) l ->
  stack l = Ok {| dtype := d; shape := len l :: sh; data := concat (map (@data T) l) |}.
Proof.
  intros Hne Hall. destruct l as [| a l]; [congruence |]. unfold stack.
  assert (Ha : shape a = sh /\ dtype a = d) by (inversion Hall; auto).
  destruct Ha as [Hs Hd].
  replace (forallb (fun b => list_eqb (shape b) (shape a)) (a :: l)) with true.
  - rewrite Hs, Hd. reflexivity.
  - symmetry. apply forallb_forall. intros b Hb.
    rewrite Forall_forall in Hall. destruct (Hall b Hb) as [Hsb _].
    rewrite Hsb, Hs. apply list_eqb_refl.
Qed.

Lemma len_map {A B} (f : A -> B) (l : list A) : len (map f l) = len l.
Proof. unfold len. rewrite length_map. reflexivity. Qed.

(** Lines 118-126 on the slices of a non-empty list of pairs. *)
Lemma finish_written (w : World) (picks : list (StudyRecord * Z)) (return_mask : bool) :
  picks <> [] ->
  finish (map (input_of w) picks, map (label_of w) picks, map (mask_of w) picks) return_mask
  = Ok (batch_written w picks return_mask).
Proof.
  intros Hne. unfold finish.
  rewrite (stack_uniform (map (input_of w) picks) [240; 240; 4] np_float64).
  2: { destruct picks; [congruence | discriminate]. }
  2: { apply Forall_map, Forall_forall. intros; split; reflexivity. }
  rewrite (stack_uniform (map (label_of w) picks) [240; 240; 1] np_uint8).
  2: { destruct picks; [congruence | discriminate]. }
  2: { apply Forall_map, Forall_forall. intros; split; reflexivity. }
  rewrite (stack_uniform (map (mask_of w) picks) [240; 240; 1] np_bool).
  2: { destruct picks; [congruence | discriminate]. }
  2: { apply Forall_map, Forall_forall. intros; split; reflexivity. }
  cbn [result_bind]. unfold batch_written, astype_float32, map_array. cbn [dtype shape data].
  rewrite !len_map, !map_map, concat_map, map_map.
  assert (E : map (fun x => map of_bool (data (mask_of w x))) picks =
              map (fun p => foreground (raw_slice (dat_volume w (fst p)) (snd p))) picks).
  { apply map_ext. intros p. unfold mask_of, foreground. cbn [data]. apply map_map. }
  rewrite E. destruct return_mask; reflexivity.
Qed.

(** A batch that could be made is the batch written out. *)
Lemma batch_of_ok (w : World) (picks : list (StudyRecord * Z)) (return_mask : bool) (b : Batch) :
  batch_of w picks return_mask = Ok b ->
  picks <> [] /\ b = batch_written w picks return_mask.
Proof.
  unfold batch_of. destruct (fetch_all w picks ([], [], [])) as [acc |] eqn:E; try discriminate.
  cbn [result_bind]. apply fetch_all_ok in E. cbn in E. subst acc.
  destruct picks as [| p picks].
  - cbn. discriminate.
  - rewrite finish_written by discriminate. intros H. apply Ok_inj in H. split; [discriminate | auto].
Qed.

Lemma batch_of_succeeds (w : World) (picks : list (StudyRecord * Z)) (return_mask : bool) :
  picks <> [] ->
  Forall (fun p => is_ok (fetch w p) = true) picks ->
  batch_of w picks return_mask = Ok (batch_written w picks return_mask).
Proof.
  intros Hne Hall. unfold batch_of.
  pose proof (fetch_all_succeeds w picks ([], [], []) Hall) as Hok.
  destruct (fetch_all w picks ([], [], [])) as [acc |] eqn:E; try discriminate.
  cbn [result_bind]. apply fetch_all_ok in E. cbn in E. subst acc.
  apply finish_written. exact Hne.
Qed.

(** ** The shuffle is a permutation *)

Lemma list_set_head_perm {T} (l : list T) (j : nat) (b x : T) :
  nth_error l j = Some b -> Permutation (b :: list_set l j x) (x :: l).
Proof.
  revert j. induction l as [| y l IH]; intros j H.
  - destruct j; discriminate.
  - destruct j as [| j]; simpl in *.
    + inversion H; subst. apply perm_swap.
    + apply Permutation_trans with (y :: b :: list_set l j x); [apply perm_swap |].
      apply Permutation_trans with (y :: x :: l); [| apply perm_swap].
      apply perm_skip. apply IH. exact H.
Qed.

Lemma list_set_swap_perm {T} (l : list T) (i j : nat) (a b : T) :
  nth_error l i = Some a -> nth_error l j = Some b ->
  Permutation (list_set (list_set l i b) j a) l.
Proof.
  revert i j. induction l as [| y l IH]; intros i j Hi Hj.
  - destruct i; discriminate.
  - destruct i as [| i], j as [| j]; simpl in *.
    + inversion Hi; inversion Hj; subst. subst. apply Permutation_refl.
    + inversion Hi; subst. apply list_set_head_perm. exact Hj.
    + inversion Hj; subst. apply list_set_head_perm. exact Hi.
    + apply perm_skip. apply IH; assumption.
Qed.

Lemma swap_perm {T} (l : list T) (i j : nat) : Permutation (swap l i j) l.
Proof.
  unfold swap. destruct (nth_error l i) as [a |] eqn:Hi; [| apply Permutation_refl].
  destruct (nth_error l j) as [b |] eqn:Hj; [| apply Permutation_refl].
  apply list_set_swap_perm; assumption.
Qed.

Lemma shuffle_from_perm {T} (i : nat) (l : list T) (g : RandomState) :
  Permutation (fst (shuffle_from i l g)) l.
Proof.
  revert l g. induction i as [| i IH]; intros l g; simpl.
  - apply Permutation_refl.
  - eapply Permutation_trans; [apply IH | apply swap_perm].
Qed.

(** [np.random.shuffle] rearranges its argument and nothing else. *)
Lemma random_shuffle_perm {T} (l : list T) (g : RandomState) :
  Permutation (fst (random_shuffle l g)) l.
Proof. apply shuffle_from_perm. Qed.

(** [np.random.randint(0, high, n)] returns [n] integers of [0, high). *)
Lemma randint_draws_spec (low span : Z) (n : nat) (g : RandomState) :
  0 < span ->
  length (fst (randint_draws low span n g)) = n /\
  Forall (fun v => low <= v < low + span) (fst (randint_draws low span n g)).
Proof.
  intros Hs. revert g. induction n as [| n IH]; intros g; simpl.
  - split; auto.
  - destruct (randint_draws low span n _) as [rest g2] eqn:E. simpl.
    specialize (IH {| raw := raw g; pos := S (pos g) |}). rewrite E in IH. simpl in IH.
    destruct IH as [IH1 IH2]. split; [lia |].
    constructor; auto. pose proof (Z.mod_pos_bound (Z.of_N (raw g (pos g))) span Hs). lia.
Qed.

Lemma random_randint_ok (high n : Z) (g g' : RandomState) (l : list Z) :
  random_randint 0 high n g = (Ok l, g') ->
  0 <= n /\ len l = n /\ Forall (fun v => 0 <= v < high) l.
Proof.
  unfold random_randint. destruct ((high <=? 0) || (n <? 0)) eqn:E; try discriminate.
  apply orb_false_iff in E. destruct E as [E1 E2].
  apply Z.leb_gt in E1. apply Z.ltb_ge in E2.
  destruct (randint_draws 0 (high - 0) (Z.to_nat n) g) as [l0 g0] eqn:Ed.
  intros H. inversion H; subst; clear H.
  pose proof (randint_draws_spec 0 (high - 0) (Z.to_nat n) g ltac:(lia)) as P.
  rewrite Ed in P. simpl in P. destruct P as [P1 P2].
  split; auto. split; [unfold len; lia |].
  eapply Forall_impl; [| exact P2]. simpl. intros; lia.
Qed.

(** ** The loop over the indices *)

Lemma fetch_all_with_rng (w : World) (g : RandomState) (picks : list (StudyRecord * Z))
  (acc : Slices) :
  fetch_all (with_rng w g) picks acc = fetch_all w picks acc.
Proof.
  revert acc. induction picks as [| p picks IH]; intros acc; cbn [fetch_all]; auto.
  change (fetch (with_rng w g) p) with (fetch w p).
  destruct (fetch w p); cbn [result_bind]; auto.
Qed.

(** A loop that completes has fetched one pair per index, in order: the
    record is [summary[mode][ind]], the slice was chosen by the mode; and
    only the generator has moved. *)
Lemma run_loop_ok (mode : string) (fixed : option Z) (inds : list Z) :
  forall (acc : Slices) (w : World) (acc' : Slices) (w' : World),
  run (for_each (load_one mode fixed) inds acc) w = (Ok acc', w') ->
  exists picks,
    fetch_all w picks acc = Ok acc' /\
    Forall2 (fun ind p => lookup w mode ind = Ok (fst p) /\ chosen w fixed p) inds picks /\
    w' = with_rng w (rng w').
Proof.
  induction inds as [| ind inds IH]; intros acc w acc' w' H.
  - cbn in H. inversion H; subst. exists []. cbn. repeat split; auto.
    symmetry. apply with_rng_id.
  - rewrite run_for_each_cons, run_load_one in H.
    destruct (lookup w mode ind) as [r |] eqn:Hl; try discriminate.
    destruct (dat_volume w r) as [dat |] eqn:Ed; try discriminate.
    destruct (lbl_volume w r) as [lbl |] eqn:El; try discriminate.
    destruct fixed as [z |].
    + destruct (take_slice r dat lbl z) as [x |] eqn:Et; try discriminate.
      cbn [result_bind] in H. apply IH in H. destruct H as (picks & Hf & Hall & Hw).
      exists ((r, z) :: picks). cbn [fetch_all]. unfold fetch at 1. cbn [fst snd].
      rewrite Ed, El. cbn [result_bind]. rewrite Et. cbn [result_bind].
      repeat split; auto.
      constructor; [| exact Hall]. split; auto. reflexivity.
    + rewrite run_draw_slice in H.
      destruct (random_rand (rng w)) as [coin g1].
      destruct (random_shuffle (candidates lbl coin) g1) as [zs g2] eqn:Es.
      destruct zs as [| z0 zs]; try discriminate.
      destruct (take_slice r dat lbl z0) as [x |] eqn:Et; try discriminate.
      cbn [result_bind] in H. apply IH in H. destruct H as (picks & Hf & Hall & Hw).
      rewrite fetch_all_with_rng in Hf.
      exists ((r, z0) :: picks). cbn [fetch_all]. unfold fetch at 1. cbn [fst snd].
      rewrite Ed, El. cbn [result_bind]. rewrite Et. cbn [result_bind].
      repeat split; auto.
      constructor; [| exact Hall]. split; auto.
      exists lbl, coin. split; auto. cbn [snd].
      pose proof (random_shuffle_perm (candidates lbl coin) g1) as P.
      rewrite Es in P. cbn [fst] in P.
      apply (Permutation_in z0 P). left. reflexivity.
Qed.

(** ** Random mode *)

(** [load(mode, n)] step by step: the cohort, the indices, the loop, the
    stacking. *)
Lemma run_load_random (w : World) (mode : string) (n : Z) (return_mask : bool) :
  run (load mode n None None return_mask) w =
  match summary_get (summary w) mode with
  | Err e => (Err e, w)
  | Ok cohort =>
      match random_randint 0 (len cohort) n (rng w) with
      | (Err e, g) => (Err e, with_rng w g)
      | (Ok inds, g) =>
          match run (for_each (load_one mode None) inds ([], [], [])) (with_rng w g) with
          | (Ok acc, w') => (finish acc return_mask, w')
          | (Err e, w') => (Err e, w')
          end
      end
  end.
Proof.
  unfold load. simpl.
  destruct (summary_get (summary w) mode) as [cohort | e]; simpl; auto.
  destruct (random_randint 0 (len cohort) n (rng w)) as [[inds | e] g]; simpl; auto.
  rewrite run_bind.
  destruct (run (for_each (load_one mode None) inds ([], [], [])) (with_rng w g))
    as [[acc | e] w']; auto.
  apply run_lift.
Qed.

(** The arguments select random mode unless both [sid] and [z] are given. *)
Lemma load_without_both (mode : string) (n : Z) (sid : option string) (z : option Z)
  (return_mask : bool) :
  sid = None \/ z = None ->
  load mode n sid z return_mask = load mode n None None return_mask.
Proof.
  intros [-> | ->]; [reflexivity |]. destruct sid; reflexivity.
Qed.

(** An unknown [sid] leaves [random] set, and [mode] naming the last
    cohort searched. *)
Lemma load_unknown_sid (w : World) (mode : string) (n : Z) (sid : string) (z : Z)
  (return_mask : bool) :
  first_match (summary w) sid = None ->
  run (load mode n (Some sid) (Some z) return_mask) w =
  run (load "valid" n None None return_mask) w.
Proof.
  intros Hm. unfold first_match in Hm.
  destruct (find (has_id sid) (train (summary w))) eqn:Et; try discriminate.
  apply find_none_indices in Et. apply find_none_indices in Hm.
  unfold load at 1. rewrite run_bind, run_search_cohorts. rewrite Et, Hm.
  reflexivity.
Qed.

Lemma list_getitem_in {T} (l : list T) (i : Z) (x : T) :
  list_getitem l i = Ok x -> In x l.
Proof.
  unfold list_getitem. destruct (normalize_index i (len l)); try discriminate.
  destruct (nth_error l _) eqn:E; try discriminate.
  intros H. apply Ok_inj in H. subst. eapply nth_error_In; eauto.
Qed.

(** A random-mode call that returns has drawn [n >= 1] pairs from the
    cohort named [mode], each slice among the candidates of its coin, and
    returns their batch. *)
Lemma load_random_ok (w w' : World) (mode : string) (n : Z) (return_mask : bool) (b : Batch) :
  run (load mode n None None return_mask) w = (Ok b, w') ->
  exists cohort picks,
    summary_get (summary w) mode = Ok cohort /\
    len picks = n /\ 1 <= n /\
    Forall (fun p => In (fst p) cohort /\ chosen w None p) picks /\
    Forall (fun p => is_ok (fetch w p) = true) picks /\
    b = batch_written w picks return_mask /\
    w' = with_rng w (rng w').
Proof.
  rewrite run_load_random.
  destruct (summary_get (summary w) mode) as [cohort |] eqn:Hc; try discriminate.
  destruct (random_randint 0 (len cohort) n (rng w)) as [[inds |] g] eqn:Hr; try discriminate.
  destruct (run (for_each (load_one mode None) inds ([], [], [])) (with_rng w g))
    as [[acc |] w1] eqn:Hl; try discriminate.
  intros H. inversion H; subst w1; clear H. rename H1 into Hfin.
  apply run_loop_ok in Hl. destruct Hl as (picks & Hf & Hall & Hw).
  rewrite fetch_all_with_rng in Hf.
  apply random_randint_ok in Hr. destruct Hr as (Hn & Hlen & _).
  pose proof (fetch_all_each _ _ _ _ Hf) as Heach.
  assert (Hb : batch_of w picks return_mask = Ok b).
  { unfold batch_of. rewrite Hf. exact Hfin. }
  apply batch_of_ok in Hb. destruct Hb as [Hne Hb].
  assert (Hpl : len picks = len inds).
  { unfold len. f_equal. symmetry. eapply Forall2_length; eauto. }
  exists cohort, picks. repeat split; auto.
  - congruence.
  - destruct picks; [congruence |]. unfold len in *. simpl length in *. lia.
  - clear - Hall Hc. induction Hall as [| ind p inds picks [Hlk Hch] _ IH]; constructor; auto.
    split; [| exact Hch].
    change (lookup (with_rng w g) mode ind) with (lookup w mode ind) in Hlk.
    unfold lookup in Hlk. rewrite Hc in Hlk. cbn [result_bind] in Hlk.
    eapply list_getitem_in; eauto.
Qed.

(** ** The candidates of a draw *)

Lemma nonzero_from_spec (mask : list bool) (k z : Z) :
  In z (nonzero_from k mask) <->
  exists i, z = k + Z.of_nat i /\ nth_error mask i = Some true.
Proof.
  revert k. induction mask as [| b mask IH]; intros k; cbn [nonzero_from].
  - split; [intros [] | intros (i & _ & H); destruct i; discriminate].
  - assert (Hrec : In z (nonzero_from (k + 1) mask) <->
                   exists i, z = k + Z.of_nat (S i) /\ nth_error mask i = Some true).
    { rewrite IH. split; intros (i & Hz & Hn); exists i; split; auto; lia. }
    destruct b.
    + split.
      * intros [<- | H]; [exists 0%nat; split; [lia | reflexivity] |].
        apply Hrec in H. destruct H as (i & Hz & Hn). exists (S i). auto.
      * intros ([| i] & Hz & Hn); [left; lia | right; apply Hrec; eauto].
    + split.
      * intros H. apply Hrec in H. destruct H as (i & Hz & Hn). exists (S i). auto.
      * intros ([| i] & Hz & Hn); [discriminate | apply Hrec; eauto].
Qed.

Lemma sum_list_bounds (l : list Z) :
  Forall (fun v => 0 <= v < 256) l ->
  0 <= sum_list l <= 255 * len l /\ (0 < sum_list l <-> has_positive l).
Proof.
  intros H. induction H as [| v l Hv _ IH]; unfold len in *; cbn [sum_list fold_right length].
  - split; [lia |]. split; [lia | intros (v & [] & _)].
  - fold (sum_list l). destruct IH as [IH1 IH2]. split; [lia |]. split.
    + intros Hs. destruct (Z.eq_dec v 0) as [-> | Hne].
      * destruct (proj1 IH2 ltac:(lia)) as (u & Hu & Hpos). exists u. split; [right |]; auto.
      * exists v. split; [left; reflexivity | lia].
    + intros (u & [<- | Hu] & Hpos); [lia |].
      assert (0 < sum_list l) by (apply IH2; exists u; auto). lia.
Qed.

Lemma Forall_sub_block {T} (P : T -> Prop) (l : list T) (i size : Z) :
  Forall P l -> Forall P (sub_block l i size).
Proof.
  intros H. unfold sub_block. rewrite Forall_forall in *. intros x Hx. apply H.
  rewrite <- (firstn_skipn (Z.to_nat (i * size)) l). apply in_or_app. right.
  rewrite <- (firstn_skipn (Z.to_nat size) (skipn (Z.to_nat (i * size)) l)).
  apply in_or_app. left. exact Hx.
Qed.

(** The label sum of a slice, in 64 bits, is positive exactly when a voxel
    of the slice is. *)
Lemma slice_sum_positive (l : list Z) (i : Z) :
  Forall (fun v => 0 <= v < 256) l ->
  (0 <? sum_list (sub_block l i 57600) mod 2 ^ 64) = true <-> has_positive (sub_block l i 57600).
Proof.
  intros H. pose proof (Forall_sub_block _ l i 57600 H) as Hb.
  destruct (sum_list_bounds _ Hb) as [Hr Hp].
  assert (Hlen : len (sub_block l i 57600) <= 57600).
  { unfold len, sub_block. rewrite length_firstn. lia. }
  rewrite Z.mod_small by lia. rewrite Z.ltb_lt. exact Hp.
Qed.

Lemma slice_sum_zero (l : list Z) (i : Z) :
  Forall (fun v => 0 <= v < 256) l ->
  (sum_list (sub_block l i 57600) mod 2 ^ 64 =? 0) = true <-> ~ has_positive (sub_block l i 57600).
Proof.
  intros H. pose proof (Forall_sub_block _ l i 57600 H) as Hb.
  destruct (sum_list_bounds _ Hb) as [Hr Hp].
  assert (Hlen : len (sub_block l i 57600) <= 57600).
  { unfold len, sub_block. rewrite length_firstn. lia. }
  rewrite Z.mod_small by lia. rewrite Z.eqb_eq. rewrite <- Hp. lia.
Qed.

(** Line 110 as a set: the candidates are the slice indices of the label
    volume whose slice has a positive voxel, when the coin exceeds 0.5,
    and those whose slice has none otherwise. *)
Lemma candidates_spec (w : World) (r : StudyRecord) (lbl : ndarray Z) (coin : F) (z : Z) :
  lbl_volume w r = Ok lbl ->
  In z (candidates lbl coin) <->
  exists S, n_slices (Ok lbl) = Some S /\ 0 <= z < S /\
    if fgt coin (of_Q (1 # 2))
    then has_positive (sub_block (data lbl) z 57600)
    else ~ has_positive (sub_block (data lbl) z 57600).
Proof.
  intros Hl. destruct (lbl_volume_ok _ _ _ Hl) as (_ & (S & Hs & _) & Hbytes).
  unfold candidates, sum_axes123, nonzero, n_slices. rewrite Hs. cbn [hd_error].
  change (prod_shape [240; 240; 1]) with 57600.
  assert (Hnth : forall (g : Z -> bool) (i : nat),
    nth_error (map g (map (fun i => sum_list (sub_block (data lbl) (Z.of_nat i) 57600) mod 2 ^ 64)
                          (seq 0 (Z.to_nat S)))) i = Some true <->
    (Z.of_nat i < S /\ g (sum_list (sub_block (data lbl) (Z.of_nat i) 57600) mod 2 ^ 64) = true)).
  { intros g i. rewrite map_map, nth_error_map.
    destruct (Nat.lt_ge_cases i (Z.to_nat S)) as [Hlt | Hge].
    - rewrite nth_error_seq. replace (i <? Z.to_nat S)%nat with true
        by (symmetry; apply Nat.ltb_lt; exact Hlt).
      cbn [option_map Nat.add]. split.
      + intros H. apply Some_inj in H. split; [lia | exact H].
      + intros [_ H]. rewrite H. reflexivity.
    - rewrite nth_error_seq. replace (i <? Z.to_nat S)%nat with false
        by (symmetry; apply Nat.ltb_ge; exact Hge).
      cbn [option_map]. split; [discriminate | intros [H _]; lia]. }
  destruct (fgt coin (of_Q (1 # 2))); rewrite nonzero_from_spec; split.
  - intros (i & -> & Hn). apply Hnth in Hn. destruct Hn as [Hi Hg].
    exists S. repeat split; try lia. cbn [Z.add]. apply slice_sum_positive; auto.
  - intros (S' & HS & Hz & Hp). apply Some_inj in HS. subst S'.
    exists (Z.to_nat z). split; [lia |]. apply Hnth. rewrite Z2Nat.id by lia.
    split; [lia |]. apply slice_sum_positive; auto.
  - intros (i & -> & Hn). apply Hnth in Hn. destruct Hn as [Hi Hg].
    exists S. repeat split; try lia. cbn [Z.add]. apply slice_sum_zero; auto.
  - intros (S' & HS & Hz & Hp). apply Some_inj in HS. subst S'.
    exists (Z.to_nat z). split; [lia |]. apply Hnth. rewrite Z2Nat.id by lia.
    split; [lia |]. apply slice_sum_zero; auto.
Qed.

(** The draws of a random-mode call that returns: [n] pairs, each a
    record of the cohort named [mode] with a slice of its label volume
    that has a positive voxel or has none, as the coin of the draw decided. *)
Lemma random_draws_structure (w w' : World) (mode : string) (n : Z) (return_mask : bool)
  (b : Batch) :
  run (load mode n None None return_mask) w = (Ok b, w') ->
  exists cohort picks,
    summary_get (summary w) mode = Ok cohort /\ len picks = n /\
    b = batch_written w picks return_mask /\
    Forall (fun p =>
      In (fst p) cohort /\
      exists lbl coin S,
        lbl_volume w (fst p) = Ok lbl /\ n_slices (Ok lbl) = Some S /\ 0 <= snd p < S /\
        if fgt coin (of_Q (1 # 2))
        then has_positive (sub_block (data lbl) (snd p) 57600)
        else ~ has_positive (sub_block (data lbl) (snd p) 57600)) picks.
Proof.
  intros H. apply load_random_ok in H.
  destruct H as (cohort & picks & Hc & Hlen & _ & Hall & _ & Hb & _).
  exists cohort, picks. repeat split; auto.
  eapply Forall_impl; [| exact Hall]. intros p [Hin (lbl & coin & Hl & Hz)].
  split; auto. apply (candidates_spec w (fst p) lbl coin (snd p) Hl) in Hz.
  destruct Hz as (S & HS & Hr & Hp). exists lbl, coin, S. auto.
Qed.

(** ** What a call leaves behind *)

#[local] Transparent draw_slice.

Lemma quiet_bind {A B} (p : Prog A) (f : A -> Prog B) :
  quiet p -> (forall a, quiet (f a)) -> quiet (bind p f).
Proof.
  intros Hp Hf. induction Hp as [a | e | X ev k Hev Hk IH]; cbn [bind]; auto.
  - constructor.
  - constructor; auto.
Qed.

Lemma quiet_lift {A} (r : result A) : quiet (@lift F A r).
Proof. destruct r; constructor. Qed.

Lemma quiet_trigger {X} (ev : event X) : reads_only ev = true -> quiet (trigger ev).
Proof. intros H. constructor; auto. intros; constructor. Qed.

Lemma quiet_for_each {A S} (body : S -> A -> Prog S) (items : list A) (acc : S) :
  (forall acc x, quiet (body acc x)) -> quiet (for_each body items acc).
Proof.
  intros Hb. revert acc. induction items as [| x items IH]; intros acc; cbn [for_each].
  - constructor.
  - apply quiet_bind; auto.
Qed.

Ltac quiet_step :=
  repeat first
    [ apply quiet_bind; [| intros ? ]
    | apply quiet_trigger; reflexivity
    | apply quiet_lift
    | apply quiet_ret
    | apply quiet_raise ].

Lemma quiet_np_memmap (fname : string) (d : np_dtype) : quiet (@np_memmap F fname d).
Proof. unfold np_memmap. quiet_step. Qed.

Lemma quiet_draw_slice (lbl : ndarray Z) : quiet (draw_slice lbl).
Proof. unfold draw_slice. quiet_step. destruct a0; constructor. Qed.

Lemma quiet_load_one (mode : string) (fixed : option Z) (acc : Slices) (ind : Z) :
  quiet (load_one mode fixed acc ind).
Proof.
  unfold load_one. quiet_step; try apply quiet_np_memmap.
  destruct fixed; [constructor | apply quiet_draw_slice].
Qed.

Lemma quiet_search_cohorts (sid : string) (modes : list string) (mode : string) :
  quiet (@search_cohorts F sid modes mode).
Proof.
  revert mode. induction modes as [| m modes IH]; intros mode; cbn [search_cohorts].
  - constructor.
  - quiet_step. destruct (find_indices sid a0); [apply IH | constructor].
Qed.

Lemma quiet_load (mode : string) (n : Z) (sid : option string) (z : option Z)
  (return_mask : bool) :
  quiet (load mode n sid z return_mask).
Proof.
  unfold load. apply quiet_bind.
  - destruct sid; [destruct z |]; first [apply quiet_search_cohorts | constructor].
  - intros [mode' found]. apply quiet_bind.
    + destruct found; [constructor |]. quiet_step.
    + intros [indices fixed]. apply quiet_bind; [| intros; apply quiet_lift].
      apply quiet_for_each. intros. apply quiet_load_one.
Qed.

(** A quiet program moves the generator and nothing else. *)
Lemma quiet_run {A} (p : Prog A) (w : World) :
  quiet p -> snd (run p w) = with_rng w (rng (snd (run p w))).
Proof.
  intros Hp. revert w. induction Hp as [a | e | X ev k Hev Hk IH]; intros w; cbn [run snd].
  - symmetry; apply with_rng_id.
  - symmetry; apply with_rng_id.
  - destruct (handle ev w) as [x w1] eqn:Eh.
    assert (Hw1 : w1 = with_rng w (rng w1)).
    { destruct ev; try discriminate; cbn in Eh.
      - inversion Eh; subst. symmetry; apply with_rng_id.
      - inversion Eh; subst. symmetry; apply with_rng_id.
      - inversion Eh; subst. symmetry; apply with_rng_id.
      - inversion Eh; subst. symmetry; apply with_rng_id.
      - inversion Eh; subst. symmetry; apply with_rng_id.
      - inversion Eh; subst. symmetry; apply with_rng_id.
      - destruct (random_rand (rng w)). inversion Eh; subst. reflexivity.
      - destruct (random_randint low high n (rng w)). inversion Eh; subst. reflexivity.
      - destruct (random_shuffle z (rng w)). inversion Eh; subst. reflexivity. }
    rewrite (IH x w1). rewrite Hw1 at 1. reflexivity.
Qed.

(** C9.  For every call to [load], in either mode and whether it returns
    or raises, the module globals after the call are those before it: the
    summary (both cohorts, every record) and the root.  The files and the
    printed output are unchanged as well. *)
Theorem load_leaves_globals (w : World) (mode : string) (n : Z) (sid : option string)
  (z : option Z) (return_mask : bool) :
  let w' := snd (run (load mode n sid z return_mask) w) in
  globals w' = globals w /\ files w' = files w /\ pickles w' = pickles w /\
  stdout w' = stdout w.
Proof.
  cbv zeta. rewrite (quiet_run (load mode n sid z return_mask) w (quiet_load _ _ _ _ _)).
  repeat split.
Qed.

(** ** Exact mode, continued *)

Lemma first_match_cases (s : Summary) (sid : string) (r : StudyRecord) :
  find (has_id sid) (train s) = Some r \/
  (find (has_id sid) (train s) = None /\ find (has_id sid) (valid s) = Some r) ->
  first_match s sid = Some r.
Proof. unfold first_match. intros [-> | [-> ->]]; reflexivity. Qed.

Lemma first_match_in (s : Summary) (sid : string) (r : StudyRecord) :
  first_match s sid = Some r -> In r (train s ++ valid s) /\ studyid r = sid.
Proof.
  unfold first_match. intros H.
  destruct (find (has_id sid) (train s)) as [r' |] eqn:Et.
  - inversion H; subst. apply find_some in Et. destruct Et as [Hi He].
    split; [apply in_or_app; auto | apply String.eqb_eq; exact He].
  - apply find_some in H. destruct H as [Hi He].
    split; [apply in_or_app; auto | apply String.eqb_eq; exact He].
Qed.

(** C6.  In exact mode the training cohort is searched before the
    validation cohort: the first record named [sid] of [train], or of
    [valid] when [train] has none, is the one whose volumes and statistics
    are used.  The call is the batch of that one (study, slice) pair: the
    caller's [mode] and [n] play no part, the generator is not touched,
    and a batch that is returned has a leading axis of length one. *)
Theorem exact_mode_first_match (w : World) (mode : string) (n : Z) (sid : string) (z : Z)
  (return_mask : bool) (r : StudyRecord) :
  find (has_id sid) (train (summary w)) = Some r \/
  (find (has_id sid) (train (summary w)) = None /\
   find (has_id sid) (valid (summary w)) = Some r) ->
  run (load mode n (Some sid) (Some z) return_mask) w = (batch_of w [(r, z)] return_mask, w) /\
  (forall mode' n',
     run (load mode' n' (Some sid) (Some z) return_mask) w =
     run (load mode n (Some sid) (Some z) return_mask) w) /\
  (forall b, batch_of w [(r, z)] return_mask = Ok b ->
     shape (dats b) = [1; 240; 240; 4] /\ shape (lbls b) = [1; 240; 240; 1] /\
     b = batch_written w [(r, z)] return_mask).
Proof.
  intros H. apply first_match_cases in H. split; [| split].
  - apply load_exact. exact H.
  - intros mode' n'. rewrite !(load_exact w _ _ sid z return_mask r H). reflexivity.
  - intros b Hb. apply batch_of_ok in Hb. destruct Hb as [_ ->]. repeat split.
Qed.

Lemma getitem0_negative {T} (a : ndarray T) (z S : Z) (rest : list Z) :
  shape a = S :: rest -> - S <= z < 0 ->
  getitem0 a z = getitem0 a (z + S) /\ is_ok (getitem0 a z) = true.
Proof.
  intros Hs Hz. unfold getitem0, normalize_index. rewrite Hs.
  replace ((0 <=? z) && (z <? S)) with false
    by (symmetry; apply andb_false_iff; left; apply Z.leb_gt; lia).
  replace ((- S <=? z) && (z <? 0)) with true
    by (symmetry; apply andb_true_iff; split; [apply Z.leb_le | apply Z.ltb_lt]; lia).
  replace ((0 <=? z + S) && (z + S <? S)) with true
    by (symmetry; apply andb_true_iff; split; [apply Z.leb_le | apply Z.ltb_lt]; lia).
  split; reflexivity.
Qed.

Lemma n_slices_shape (vol : result (ndarray Z)) (a : ndarray Z) (S S' : Z) (rest : list Z) :
  vol = Ok a -> n_slices vol = Some S -> shape a = S' :: rest -> S' = S.
Proof. intros -> H Hs. unfold n_slices in H. rewrite Hs in H. cbn in H. congruence. Qed.

(** C10.  In exact mode [load] does not check the range of [z] itself:
    for a study that is found and has [S] slices, a negative [z] with
    [-S <= z] is accepted and is the slice [z + S], counted from the end
    ([z = -1] is the last slice, [S - 1]); the call returns that slice's
    batch. *)
Theorem exact_mode_negative_index (w : World) (mode : string) (n : Z) (sid : string) (z S : Z)
  (return_mask : bool) (r : StudyRecord) :
  first_match (summary w) sid = Some r ->
  n_slices (dat_volume w r) = Some S ->
  n_slices (lbl_volume w r) = Some S ->
  - S <= z < 0 ->
  fst (run (load mode n (Some sid) (Some z) return_mask) w)
    = Ok (batch_written w [(r, z + S)] return_mask) /\
  fst (run (load mode n (Some sid) (Some (z + S)) return_mask) w)
    = Ok (batch_written w [(r, z + S)] return_mask) /\
  0 <= z + S < S /\
  (z = -1 -> z + S = S - 1).
Proof.
  intros Hm Hd Hl Hz.
  rewrite !(load_exact w mode n sid _ return_mask r Hm). cbn [fst].
  destruct (dat_volume w r) as [dat |] eqn:Ed; [| discriminate].
  destruct (lbl_volume w r) as [lbl |] eqn:El; [| discriminate].
  destruct (dat_volume_ok _ _ _ Ed) as (_ & S1 & Hs1 & _).
  destruct (lbl_volume_ok _ _ _ El) as (_ & (S2 & Hs2 & _) & _).
  assert (S1 = S) by (eapply (n_slices_shape (Ok dat)); eauto). subst S1.
  assert (S2 = S) by (eapply (n_slices_shape (Ok lbl)); eauto). subst S2.
  destruct (getitem0_negative dat z S _ Hs1 Hz) as [Eg1 Ok1].
  destruct (getitem0_negative lbl z S _ Hs2 Hz) as [Eg2 Ok2].
  assert (Hf : fetch w (r, z) = fetch w (r, z + S) /\ is_ok (fetch w (r, z + S)) = true).
  { unfold fetch. cbn [fst snd]. rewrite Ed, El. cbn [result_bind].
    unfold take_slice, getitem0_first_channel. rewrite Eg1, Eg2. split; auto.
    rewrite <- Eg1, <- Eg2.
    destruct (getitem0 dat z) as [s |] eqn:E1; [| discriminate].
    destruct (getitem0 lbl z) as [l |] eqn:E2; [| discriminate].
    apply getitem0_ok in E1. destruct E1 as (n0 & rest & i & Hsh & _ & _ & Hss & _).
    rewrite Hs1 in Hsh. inversion Hsh; subst. rewrite <- H1. reflexivity. }
  destruct Hf as [Hf1 Hf2].
  assert (Hb : batch_of w [(r, z + S)] return_mask
               = Ok (batch_written w [(r, z + S)] return_mask)).
  { apply batch_of_succeeds; [discriminate |]. constructor; auto. }
  assert (Hb' : batch_of w [(r, z)] return_mask = batch_of w [(r, z + S)] return_mask).
  { unfold batch_of. cbn [fetch_all]. rewrite Hf1. reflexivity. }
  rewrite Hb', Hb. repeat split; lia.
Qed.

(** ** Every batch, in either mode *)

Lemma summary_get_in (s : Summary) (key : string) (cohort : list StudyRecord) (r : StudyRecord) :
  summary_get s key = Ok cohort -> In r cohort -> In r (train s ++ valid s).
Proof.
  unfold summary_get. destruct (String.eqb key "train").
  - intros H Hi. apply Ok_inj in H. subst. apply in_or_app. auto.
  - destruct (String.eqb key "valid"); try discriminate.
    intros H Hi. apply Ok_inj in H. subst. apply in_or_app. auto.
Qed.

Lemma concat_len {A T} (f : A -> list T) (l : list A) (k : Z) :
  Forall (fun a => len (f a) = k) l -> len (concat (map f l)) = len l * k.
Proof.
  intros H. induction H as [| a l Ha _ IH]; [reflexivity |].
  cbn [map concat]. unfold len in *. rewrite length_app. simpl length. lia.
Qed.

(** ** The selection of a call *)

(** A loop of random mode that completes has fetched one pair per index,
    in order: the record is [summary[mode][ind]], the slice is the one
    drawn from the state the iterations before it have left. *)
Lemma run_loop_draws (mode : string) (inds : list Z) :
  forall (acc : Slices) (w : World) (acc' : Slices) (w' : World),
  run (for_each (load_one mode None) inds acc) w = (Ok acc', w') ->
  exists picks,
    fetch_all w picks acc = Ok acc' /\
    length picks = length inds /\
    forall k ind, nth_error inds k = Some ind ->
      exists r zk lbl acck wk,
        nth_error picks k = Some (r, zk) /\
        lookup w mode ind = Ok r /\
        run (for_each (load_one mode None) (firstn k inds) acc) w = (Ok acck, wk) /\
        lbl_volume w r = Ok lbl /\
        drawn_slice lbl (rng wk) = Some zk.
Proof.
  induction inds as [| ind inds IH]; intros acc w acc' w' H.
  - cbn in H. inversion H; subst. exists []. cbn [fetch_all]. repeat split; auto.
    intros [| k] ind Hk; discriminate.
  - rewrite run_for_each_cons in H.
    destruct (run (load_one mode None acc ind) w) as [[acc1 |] w1] eqn:E1; try discriminate.
    pose proof E1 as E2. rewrite run_load_one in E2.
    destruct (lookup w mode ind) as [r |] eqn:Hl; try discriminate.
    destruct (dat_volume w r) as [dat |] eqn:Ed; try discriminate.
    destruct (lbl_volume w r) as [lbl |] eqn:El; try discriminate.
    rewrite run_draw_slice in E2.
    destruct (random_rand (rng w)) as [coin g1] eqn:Ec.
    destruct (random_shuffle (candidates lbl coin) g1) as [zs g2] eqn:Es.
    destruct zs as [| z0 zs]; try discriminate.
    destruct (take_slice r dat lbl z0) as [x |] eqn:Et; try discriminate.
    cbn [result_bind] in E2. inversion E2; subst acc1 w1; clear E2.
    apply IH in H. destruct H as (picks & Hf & Hlen & Hall).
    rewrite fetch_all_with_rng in Hf.
    exists ((r, z0) :: picks). cbn [fetch_all]. unfold fetch at 1. cbn [fst snd].
    rewrite Ed, El. cbn [result_bind]. rewrite Et. cbn [result_bind].
    split; [exact Hf |]. split; [cbn [length]; congruence |].
    intros [| k] i Hk.
    + cbn in Hk. apply Some_inj in Hk. subst i.
      exists r, z0, lbl, acc, w. cbn [nth_error firstn for_each run]. repeat split; auto.
      unfold drawn_slice. rewrite Ec, Es. reflexivity.
    + cbn [nth_error] in Hk. destruct (Hall k i Hk) as (r' & zk & lbl' & acck & wk & H1 & H2 & H3 & H4 & H5).
      exists r', zk, lbl', acck, wk. cbn [nth_error firstn]. repeat split; auto.
      rewrite run_for_each_cons, E1. exact H3.
Qed.

(** A random-mode call that returns returns the batch of its selection. *)
Lemma load_random_selection (w w' : World) (mode : string) (n : Z) (return_mask : bool)
  (b : Batch) :
  run (load mode n None None return_mask) w = (Ok b, w') ->
  exists picks,
    random_selection w mode n picks /\ picks <> [] /\
    Forall (fun p => In (fst p) (train (summary w) ++ valid (summary w))) picks /\
    Forall (fun p => is_ok (fetch w p) = true) picks /\
    b = batch_written w picks return_mask.
Proof.
  rewrite run_load_random.
  destruct (summary_get (summary w) mode) as [cohort |] eqn:Hc; try discriminate.
  destruct (random_randint 0 (len cohort) n (rng w)) as [[inds |] g] eqn:Hr; try discriminate.
  destruct (run (for_each (load_one mode None) inds ([], [], [])) (with_rng w g))
    as [[acc |] w1] eqn:Hl; try discriminate.
  intros H. inversion H; subst w1; clear H. rename H1 into Hfin.
  apply run_loop_draws in Hl. destruct Hl as (picks & Hf & Hlen & Hall).
  rewrite fetch_all_with_rng in Hf.
  pose proof (random_randint_ok _ _ _ _ _ Hr) as (Hn & Hli & _).
  pose proof (fetch_all_each _ _ _ _ Hf) as Heach.
  assert (Hb : batch_of w picks return_mask = Ok b).
  { unfold batch_of. rewrite Hf. exact Hfin. }
  apply batch_of_ok in Hb. destruct Hb as [Hne Hb].
  assert (Hsel : forall k ind, nth_error inds k = Some ind ->
    exists r zk lbl acc wk,
      nth_error picks k = Some (r, zk) /\ list_getitem cohort ind = Ok r /\
      run (for_each (load_one mode None) (firstn k inds) ([], [], [])) (with_rng w g)
        = (Ok acc, wk) /\
      lbl_volume w r = Ok lbl /\ drawn_slice lbl (rng wk) = Some zk).
  { intros k ind Hk. destruct (Hall k ind Hk) as (r & zk & lbl & acck & wk & H1 & H2 & H3 & H4 & H5).
    exists r, zk, lbl, acck, wk. repeat split; auto.
    change (lookup (with_rng w g) mode ind) with (lookup w mode ind) in H2.
    unfold lookup in H2. rewrite Hc in H2. exact H2. }
  exists picks. repeat split; auto.
  - exists cohort, inds, g. repeat split; auto. unfold len in *. lia.
  - rewrite Forall_forall. intros p Hp.
    destruct (In_nth_error _ _ Hp) as [k Hk].
    assert (Hlt : (k < length inds)%nat).
    { rewrite <- Hlen. apply nth_error_Some. congruence. }
    destruct (nth_error inds k) as [ind |] eqn:Hi.
    2: { apply nth_error_None in Hi. lia. }
    destruct (Hsel k ind Hi) as (r & zk & _ & _ & _ & H1 & H2 & _).
    rewrite Hk in H1. apply Some_inj in H1. subst p. cbn [fst].
    eapply summary_get_in; eauto. eapply list_getitem_in; eauto.
Qed.

(** A call that returns, whatever its arguments, returns the batch of its
    selection: each pair a record of the summary with a slice that could
    be fetched. *)
Lemma load_selection (w w' : World) (mode : string) (n : Z) (sid : option string)
  (z : option Z) (return_mask : bool) (b : Batch) :
  run (load mode n sid z return_mask) w = (Ok b, w') ->
  exists picks,
    is_selection w mode n sid z picks /\ picks <> [] /\
    Forall (fun p => In (fst p) (train (summary w) ++ valid (summary w))) picks /\
    Forall (fun p => is_ok (fetch w p) = true) picks /\
    b = batch_written w picks return_mask.
Proof.
  intros H. unfold is_selection.
  destruct sid as [s |]; [destruct z as [z0 |] |].
  - destruct (first_match (summary w) s) as [r |] eqn:Hm.
    + rewrite (load_exact w mode n s z0 return_mask r Hm) in H.
      inversion H; subst w'. rename H1 into Hb.
      pose proof Hb as Hb2. apply batch_of_ok in Hb2. destruct Hb2 as [Hne ->].
      exists [(r, z0)]. repeat split; auto.
      * constructor; [| constructor]. apply (first_match_in _ _ _ Hm).
      * unfold batch_of in Hb.
        destruct (fetch_all w [(r, z0)] ([], [], [])) eqn:Ef; [| discriminate].
        eapply fetch_all_each; eauto.
    + rewrite (load_unknown_sid w mode n s z0 return_mask Hm) in H.
      eapply load_random_selection; eauto.
  - rewrite (load_without_both mode n (Some s) None return_mask) in H by auto.
    eapply load_random_selection; eauto.
  - eapply load_random_selection; eauto.
Qed.

(** C4.  Every slice of a returned batch is normalised with the scalar
    pair of its own study.  The pairs (study record, slice index) are the
    selection of the call: the one pair (first match, [z]) in exact mode,
    the [n] pairs the generator draws in random mode; there is at least
    one, and the input tensor has one [240 x 240 x 4] slice per pair.  For
    the pairs in order, the input tensor holds [(v - mean) / sd] for each
    raw value [v] of the slice, the same two scalars for every channel,
    and the mask, cast to float32, holds [v > 0] for the values [v] of
    channel 0 alone: neither [mean] nor [sd] occurs in it.  This holds for
    every [sd], zero or not. *)
Theorem load_normalizes_each_slice (w : World) (mode : string) (n : Z) (sid : option string)
  (z : option Z) (return_mask : bool) :
  is_ok (fst (run (load mode n sid z return_mask) w)) = true ->
  exists b picks,
    fst (run (load mode n sid z return_mask) w) = Ok b /\
    is_selection w mode n sid z picks /\
    picks <> [] /\
    shape (dats b) = [len picks; 240; 240; 4] /\
    len (data (dats b)) = len picks * (240 * 240 * 4) /\
    Forall (fun p => In (fst p) (train (summary w) ++ valid (summary w)) /\
                     is_ok (fetch w p) = true /\
                     len (raw_slice (dat_volume w (fst p)) (snd p)) = 240 * 240 * 4) picks /\
    data (dats b) =
      concat (map (fun p =>
                map (fun v => fdiv (fsub (of_int v) (mean (fst p))) (sd (fst p)))
                    (raw_slice (dat_volume w (fst p)) (snd p))) picks) /\
    (return_mask = true ->
     exists m, msks b = Some m /\ dtype m = np_float32 /\
       shape m = [len picks; 240; 240; 1] /\
       data m =
         concat (map (fun p =>
                   map (fun v => of_bool (0 <? v))
                       (channel0 4 (raw_slice (dat_volume w (fst p)) (snd p)))) picks)).
Proof.
  intros Hok.
  destruct (run (load mode n sid z return_mask) w) as [[b |] w'] eqn:E; [| discriminate].
  apply load_selection in E. destruct E as (picks & Hsel & Hne & Hin & Heach & ->).
  exists (batch_written w picks return_mask), picks. cbn [fst].
  split; [reflexivity |]. split; [exact Hsel |]. split; [exact Hne |].
  split; [reflexivity |]. split; [| split; [| split; [reflexivity |]]].
  - cbn [batch_written dats data]. apply concat_len.
    rewrite Forall_forall in *. intros p Hp. unfold input_of, normalize. cbn [data]. rewrite len_map.
    apply (fetch_lengths w p). auto.
  - rewrite Forall_forall in *. intros p Hp. repeat split; auto.
    apply (fetch_lengths w p). auto.
  - intros ->. cbn [batch_written msks]. eexists. repeat split.
Qed.

(** ** Sizes *)

Lemma stride4_length {T} (m : nat) (l : list T) :
  length l = (4 * m)%nat -> length (stride_from 4 0 l) = m.
Proof.
  revert l. induction m as [| m IH]; intros l H.
  - destruct l; [reflexivity | discriminate].
  - destruct l as [| a [| b [| c [| d l]]]]; simpl in H; try lia.
    simpl. f_equal. apply IH. lia.
Qed.

Lemma channel0_length {T} (l : list T) (k : Z) :
  0 <= k -> len l = 4 * k -> len (channel0 4 l) = k.
Proof.
  intros Hk H. unfold channel0, len in *. change (Z.to_nat 4) with 4%nat.
  rewrite (stride4_length (Z.to_nat k) l); lia.
Qed.

(** C5 (the shapes; the input comes out as float64, not float32).
    A random-mode call that returns was made with [n >= 1] and returns an
    input tensor of shape (n, 240, 240, 4) and dtype float64 (an int16
    slice minus an [np.float64] scalar, never cast), a label tensor of
    shape (n, 240, 240, 1) and dtype uint8 and, when [return_mask] is set,
    a mask of shape (n, 240, 240, 1) and dtype float32 whose elements are
    0.0 or 1.0; each tensor has as many elements as its shape says. *)
Theorem random_mode_batch_shape (w : World) (mode : string) (n : Z) (return_mask : bool) :
  is_ok (fst (run (load mode n None None return_mask) w)) = true ->
  exists b,
    fst (run (load mode n None None return_mask) w) = Ok b /\ 1 <= n /\
    shape (dats b) = [n; 240; 240; 4] /\ dtype (dats b) = np_float64 /\
    len (data (dats b)) = n * 230400 /\
    shape (lbls b) = [n; 240; 240; 1] /\ dtype (lbls b) = np_uint8 /\
    len (data (lbls b)) = n * 57600 /\
    (return_mask = false -> msks b = None) /\
    (return_mask = true ->
     exists m, msks b = Some m /\
       shape m = [n; 240; 240; 1] /\ dtype m = np_float32 /\
       len (data m) = n * 57600 /\
       Forall (fun x => x = of_bool false \/ x = of_bool true) (data m)).
Proof.
  intros Hok.
  destruct (run (load mode n None None return_mask) w) as [[b |] w'] eqn:E; [| discriminate].
  apply load_random_ok in E.
  destruct E as (cohort & picks & Hc & Hlen & Hn & Hall & Heach & -> & _).
  exists (batch_written w picks return_mask). cbn [fst batch_written dats lbls msks shape dtype data].
  rewrite Hlen.
  assert (Hd : Forall (fun p => len (data (input_of w p)) = 230400) picks).
  { eapply Forall_impl; [| exact Heach]. intros p Hp. cbn [input_of data]. unfold normalize.
    rewrite len_map. apply (fetch_lengths w p Hp). }
  assert (Hl : Forall (fun p => len (data (label_of w p)) = 57600) picks).
  { eapply Forall_impl; [| exact Heach]. intros p Hp. apply (fetch_lengths w p Hp). }
  assert (Hm : Forall (fun p => len (foreground (raw_slice (dat_volume w (fst p)) (snd p)))
                                = 57600) picks).
  { eapply Forall_impl; [| exact Heach]. intros p Hp. unfold foreground. rewrite len_map.
    apply channel0_length; [lia |]. rewrite (proj1 (fetch_lengths w p Hp)). reflexivity. }
  repeat split; auto.
  - rewrite (concat_len _ picks 230400 Hd). congruence.
  - rewrite (concat_len _ picks 57600 Hl). congruence.
  - intros ->. reflexivity.
  - intros ->. eexists. repeat split.
    + cbn [data]. rewrite (concat_len _ picks 57600 Hm). congruence.
    + cbn [data]. apply Forall_concat. apply Forall_map, Forall_forall. intros p _.
      unfold foreground. apply Forall_map, Forall_forall. intros v _.
      destruct (0 <? v); auto.
Qed.

(** ** Calls that find nothing to load *)

(** C1 (amended).  A [sid] that no record of either cohort carries is not
    an error: [random] stays set, so the call goes on in random mode and
    its outcome is that of a random-mode call [load(m, n)] on one of the
    two cohorts, with [sid] and [z] ignored. *)
Theorem unknown_sid_goes_random (w : World) (mode : string) (n : Z) (sid : string) (z : Z)
  (return_mask : bool) :
  first_match (summary w) sid = None ->
  exists m, In m ["train"; "valid"] /\
    run (load mode n (Some sid) (Some z) return_mask) w =
    run (load m n None None return_mask) w.
Proof.
  intros H. exists "valid". split; [right; left; reflexivity |].
  apply load_unknown_sid. exact H.
Qed.

Lemma nth_error_split_firstn {T} (l : list T) (k : nat) (x : T) :
  nth_error l k = Some x -> l = (firstn k l ++ x :: skipn (S k) l)%list.
Proof.
  revert k. induction l as [| y l IH]; intros k H.
  - destruct k; discriminate.
  - destruct k as [| k]; simpl in *.
    + inversion H; reflexivity.
    + f_equal. apply IH. exact H.
Qed.

(** C2 (amended).  In random mode, a draw whose coin selects an empty set
    of candidate slices (say the positive branch for a study without a
    labelled voxel) makes [load] fail with [IndexError]: the shuffled empty
    array is indexed at 0 unguarded and the exception of that access
    leaves [load]; no slice is returned.  Here the draw is the one of
    index [k]: the draws before it completed, leaving the state [wk]. *)
Theorem empty_candidates_raise_IndexError (w : World) (mode : string) (n : Z)
  (return_mask : bool) (cohort : list StudyRecord) (inds : list Z) (g : RandomState)
  (k : nat) (acc : Slices) (wk : World) (ind : Z) (r : StudyRecord) :
  summary_get (summary w) mode = Ok cohort ->
  random_randint 0 (len cohort) n (rng w) = (Ok inds, g) ->
  run (for_each (load_one mode None) (firstn k inds) ([], [], [])) (with_rng w g) = (Ok acc, wk) ->
  nth_error inds k = Some ind ->
  list_getitem cohort ind = Ok r ->
  is_ok (dat_volume w r) = true ->
  candidates_at w r (fst (random_rand (rng wk))) = Ok [] ->
  fst (run (load mode n None None return_mask) w) = Err IndexError.
Proof.
  intros Hc Hr Hpre Hk Hg Hd Hcand.
  rewrite run_load_random, Hc, Hr.
  rewrite (nth_error_split_firstn inds k ind Hk), run_for_each_app.
  rewrite Hpre, run_for_each_cons, run_load_one.
  pose proof (run_loop_ok mode None _ _ _ _ _ Hpre) as (_ & _ & _ & Hw).
  assert (Hlk : lookup wk mode ind = Ok r).
  { rewrite Hw. change (lookup w mode ind = Ok r). unfold lookup. rewrite Hc. exact Hg. }
  assert (Hdv : dat_volume wk r = dat_volume w r) by (rewrite Hw; reflexivity).
  assert (Hlv : lbl_volume wk r = lbl_volume w r) by (rewrite Hw; reflexivity).
  rewrite Hlk, Hdv, Hlv.
  destruct (dat_volume w r) as [dat |]; [| discriminate].
  unfold candidates_at in Hcand.
  destruct (lbl_volume w r) as [lbl |]; [| discriminate].
  cbn [result_bind] in Hcand. apply Ok_inj in Hcand.
  rewrite run_draw_slice.
  destruct (random_rand (rng wk)) as [coin g1]. cbn [fst] in Hcand. rewrite Hcand.
  reflexivity.
Qed.

(** ** Building the summary *)

Lemma enumerate_from_snd {T} (l : list T) (k : Z) : map snd (enumerate_from k l) = l.
Proof.
  revert k. induction l as [| x l IH]; intros k; simpl; auto. f_equal. apply IH.
Qed.

(** One scanned file adds one record, named after its directory, to one
    of the two cohorts. *)
Lemma run_summarize_one (valid_ratio : F) (acc acc' : Summary) (item : Z * string)
  (w w' : World) :
  run (summarize_one valid_ratio acc item) w = (Ok acc', w') ->
  exists (t : bool * StudyRecord),
    studyid (snd t) = basename (dirname (snd item)) /\
    train acc' = (train acc ++ map snd (filter fst [t]))%list /\
    valid acc' = (valid acc ++ map snd (filter (fun t => negb (fst t)) [t]))%list /\
    dirs w' = dirs w /\ pickles w' = pickles w.
Proof.
  destruct item as [n dfile]. unfold summarize_one. simpl.
  destruct (memmap (files w dfile) np_int16) as [dat |]; simpl; try discriminate.
  destruct (fgt (random_sample _) valid_ratio); simpl; intros H; inversion H; subst; clear H.
  - eexists (true, _). simpl. rewrite app_nil_r. repeat split; reflexivity.
  - eexists (false, _). simpl. rewrite app_nil_r. repeat split; reflexivity.
Qed.

Lemma run_summarize_all (valid_ratio : F) (items : list (Z * string)) :
  forall (acc acc' : Summary) (w w' : World),
  run (for_each (summarize_one valid_ratio) items acc) w = (Ok acc', w') ->
  exists (tagged : list (bool * StudyRecord)),
    map (fun t => studyid (snd t)) tagged = map (fun it => basename (dirname (snd it))) items /\
    train acc' = (train acc ++ map snd (filter fst tagged))%list /\
    valid acc' = (valid acc ++ map snd (filter (fun t => negb (fst t)) tagged))%list /\
    dirs w' = dirs w /\ pickles w' = pickles w.
Proof.
  induction items as [| item items IH]; intros acc acc' w w' H.
  - cbn in H. inversion H; subst. exists []. cbn. rewrite !app_nil_r. repeat split.
  - rewrite run_for_each_cons in H.
    destruct (run (summarize_one valid_ratio acc item) w) as [[acc1 |] w1] eqn:E1;
      try discriminate.
    apply run_summarize_one in E1. destruct E1 as (t & Hid & Ht & Hv & Hd & Hp).
    apply IH in H. destruct H as (tagged & Hids & Ht' & Hv' & Hd' & Hp').
    exists (t :: tagged). repeat split.
    + cbn [map]. f_equal; auto.
    + rewrite Ht', Ht. change (t :: tagged) with ([t] ++ tagged)%list.
      rewrite filter_app, map_app, app_assoc. reflexivity.
    + rewrite Hv', Hv. change (t :: tagged) with ([t] ++ tagged)%list.
      rewrite filter_app, map_app, app_assoc. reflexivity.
    + congruence.
    + congruence.
Qed.

Lemma partition_perm {A} (f : A -> bool) (l : list A) :
  Permutation (filter f l ++ filter (fun x => negb (f x)) l) l.
Proof.
  induction l as [| x l IH]; simpl; auto.
  destruct (f x); simpl.
  - apply perm_skip. exact IH.
  - apply Permutation_sym, Permutation_cons_app, Permutation_sym. exact IH.
Qed.

(** One iteration of the loop of [create_summary], written out. *)
Lemma run_summarize_one_eq (valid_ratio : F) (acc : Summary) (n : Z) (dfile : string)
  (w : World) :
  fst (run (summarize_one valid_ratio acc (n, dfile)) w) =
  result_bind (memmap (files w dfile) np_int16) (fun dat =>
    summary_append acc
      (if fgt (fst (random_rand (rng w))) valid_ratio then "train" else "valid")
      {| studyid := basename (dirname dfile);
         mean := np_mean (filter (fun v => 0 <? v) (data dat));
         sd := np_std (filter (fun v => 0 <? v) (data dat)) |}).
Proof.
  unfold summarize_one. simpl.
  destruct (memmap (files w dfile) np_int16) as [dat |]; simpl; [| reflexivity].
  destruct (fgt (random_sample _) valid_ratio); reflexivity.
Qed.

(** C8.  A summary that [create_summary] builds and writes holds one
    record per scanned file [root/*/dat.npy], named after the file's
    directory, each in exactly one of the two cohorts and in scan order:
    [train] and [valid] together are a rearrangement of the scanned
    studies, none omitted and none added; and when the scanned directories
    are distinct no study identifier occurs twice, within a cohort or
    across the two. *)
Theorem create_summary_partitions (w : World) (root : string) (valid_ratio : F) :
  is_ok (fst (run (create_summary root valid_ratio) w)) = true ->
  let scanned := map (fun f => basename (dirname f)) (glob_result w (root ++ "/*/dat.npy")) in
  exists (s : Summary) (tagged : list (bool * StudyRecord)),
    pickles (snd (run (create_summary root valid_ratio) w)) (root ++ "/data.pickle") = Some s /\
    map (fun t => studyid (snd t)) tagged = scanned /\
    train s = map snd (filter fst tagged) /\
    valid s = map snd (filter (fun t => negb (fst t)) tagged) /\
    Permutation (map studyid (train s ++ valid s)) scanned /\
    (NoDup scanned -> NoDup (map studyid (train s ++ valid s))).
Proof.
  intros Hok scanned. unfold create_summary in *. simpl in *.
  rewrite run_bind in *.
  destruct (run (for_each (summarize_one valid_ratio)
                   (enumerate (glob_result w (root ++ "/*/dat.npy")))
                   {| train := []; valid := [] |}) w) as [[s |] w1] eqn:E; try discriminate.
  apply run_summarize_all in E. destruct E as (tagged & Hids & Ht & Hv & Hd & Hp).
  simpl in *. rewrite Hd in *.
  destruct (dirs w (dirname (root ++ "/data.pickle"))); try discriminate.
  simpl. exists s, tagged.
  assert (Hscan : map (fun t => studyid (snd t)) tagged = scanned).
  { rewrite Hids. unfold scanned, enumerate.
    rewrite <- (enumerate_from_snd (glob_result w (root ++ "/*/dat.npy")) 0) at 2.
    rewrite map_map. reflexivity. }
  assert (Hperm : Permutation (map studyid (train s ++ valid s)) scanned).
  { rewrite Ht, Hv, <- Hscan, <- map_app, map_map.
    apply Permutation_map. apply partition_perm. }
  repeat split; auto.
  - unfold set_file. rewrite String.eqb_refl. reflexivity.
  - intros Hnd. eapply Permutation_NoDup; [apply Permutation_sym; exact Hperm | exact Hnd].
Qed.

End LoaderFacts.

(** ** A zero standard deviation *)

Lemma xq_div_zero (x : xq) (q : Q) : q_is_zero q = true -> is_finite (xq_div x (Fin q)) = false.
Proof.
  intros Hq. destruct x as [a | | |]; cbn [xq_div]; rewrite ?Hq, ?orb_true_r; auto.
  destruct (q_is_zero a); auto. destruct (q_pos a); auto.
Qed.

(** C3 (amended).  A study whose [sd] is zero is not detected anywhere.
    [load] divides by [sd] all the same: when the slice can be fetched the
    call returns normally, and every element of the input tensor is an
    infinity or not-a-number.  And [create_summary] records every file it
    can map, whatever its statistics: an iteration of its loop on such a
    file returns the dictionary with exactly one record appended, to the
    cohort the coin selects, whose [sd] is the standard deviation as
    computed, zero included. *)
Theorem zero_sd_is_divided_by (w : @World xq) (mode : string) (n : Z) (sid : string) (z : Z)
  (return_mask : bool) (r : @StudyRecord xq) (q : Q) :
  first_match (summary w) sid = Some r ->
  sd r = Fin q -> q_is_zero q = true ->
  is_ok (fetch w (r, z)) = true ->
  fst (run (load mode n (Some sid) (Some z) return_mask) w)
    = Ok (batch_written w [(r, z)] return_mask) /\
  Forall (fun x => is_finite x = false) (data (dats (batch_written w [(r, z)] return_mask))) /\
  (forall (valid_ratio : xq) (acc : @Summary xq) (k : Z) (dfile : string) (w0 : @World xq)
          (dat : ndarray Z),
     memmap (files w0 dfile) np_int16 = Ok dat ->
     let positive := filter (fun v => 0 <? v) (data dat) in
     let entry := {| studyid := basename (dirname dfile);
                     mean := np_mean positive; sd := np_std positive |} in
     fst (run (summarize_one valid_ratio acc (k, dfile)) w0) =
     Ok (if fgt (fst (random_rand (rng w0))) valid_ratio
         then {| train := train acc ++ [entry]; valid := valid acc |}
         else {| train := train acc; valid := valid acc ++ [entry] |})).
Proof.
  intros Hm Hsd Hq Hf. split; [| split].
  - rewrite (load_exact w mode n sid z return_mask r Hm). cbn [fst].
    apply batch_of_succeeds; [discriminate |]. constructor; auto.
  - cbn [batch_written dats data map concat]. rewrite app_nil_r.
    cbn [input_of data fst snd]. unfold normalize. apply Forall_map, Forall_forall.
    intros v _. rewrite Hsd. apply xq_div_zero. exact Hq.
  - intros valid_ratio acc k dfile w0 dat Hdat positive entry.
    rewrite run_summarize_one_eq, Hdat. cbn [result_bind]. fold positive. fold entry.
    destruct (fgt (fst (random_rand (rng w0))) valid_ratio); reflexivity.
Qed.

(** * The properties at work on the two studies *)

(** [s0] is found in the training cohort, whatever [mode] and [n] say. *)
Lemma exact_mode_first_match_witness :
  run (load "valid" 5 (Some "s0") (Some 1) true) w_demo
  = (batch_of w_demo [(rec_s0, 1)] true, w_demo).
Proof.
  exact (proj1 (exact_mode_first_match w_demo "valid" 5 "s0" 1 true rec_s0
                  (or_introl eq_refl))).
Defined.

(** [s0] has two slices: [z = -1] is slice 1. *)
Lemma exact_mode_negative_index_witness :
  fst (run (load "train" 1 (Some "s0") (Some (-1)) true) w_demo)
  = Ok (batch_written w_demo [(rec_s0, -1 + 2)] true).
Proof.
  refine (proj1 (exact_mode_negative_index w_demo "train" 1 "s0" (-1) 2 true rec_s0
                   eq_refl _ _ _)).
  - vm_compute. reflexivity.
  - vm_compute. reflexivity.
  - lia.
Defined.

(** One random draw from the training cohort. *)
Lemma load_normalizes_each_slice_witness :
  exists b picks,
    fst (run (load "train" 1 None None true) w_demo) = Ok b /\
    is_selection w_demo "train" 1 None None picks /\
    picks <> [] /\
    shape (dats b) = [len picks; 240; 240; 4] /\
    len (data (dats b)) = len picks * (240 * 240 * 4) /\
    Forall (fun p => In (fst p) (train (summary w_demo) ++ valid (summary w_demo)) /\
                     is_ok (fetch w_demo p) = true /\
                     len (raw_slice (dat_volume w_demo (fst p)) (snd p)) = 240 * 240 * 4) picks /\
    data (dats b) =
      concat (map (fun p =>
                map (fun v => fdiv (fsub (of_int v) (mean (fst p))) (sd (fst p)))
                    (raw_slice (dat_volume w_demo (fst p)) (snd p))) picks) /\
    (true = true ->
     exists m, msks b = Some m /\ dtype m = np_float32 /\
       shape m = [len picks; 240; 240; 1] /\
       data m =
         concat (map (fun p =>
                   map (fun v => of_bool (0 <? v))
                       (channel0 4 (raw_slice (dat_volume w_demo (fst p)) (snd p)))) picks)).
Proof.
  apply (load_normalizes_each_slice w_demo "train" 1 None None true).
  vm_compute. reflexivity.
Defined.

(** Two random draws from the training cohort, with the mask. *)
Lemma random_mode_batch_shape_witness :
  exists b,
    fst (run (load "train" 2 None None true) w_demo) = Ok b /\ 1 <= 2 /\
    shape (dats b) = [2; 240; 240; 4] /\ dtype (dats b) = np_float64 /\
    len (data (dats b)) = 2 * 230400 /\
    shape (lbls b) = [2; 240; 240; 1] /\ dtype (lbls b) = np_uint8 /\
    len (data (lbls b)) = 2 * 57600 /\
    (true = false -> msks b = None) /\
    (true = true ->
     exists m, msks b = Some m /\
       shape m = [2; 240; 240; 1] /\ dtype m = np_float32 /\
       len (data m) = 2 * 57600 /\
       Forall (fun x => x = of_bool false \/ x = of_bool true) (data m)).
Proof.
  apply (random_mode_batch_shape w_demo "train" 2 true).
  vm_compute. reflexivity.
Defined.

(** C1, as stated, fails: no record is named "nope", and yet the call
    returns a batch instead of failing. *)
Lemma unknown_sid_returns_a_batch :
  first_match (summary w_demo) "nope" = None /\
  is_ok (fst (run (load "train" 1 (Some "nope") (Some 0) false) w_demo)) = true.
Proof. split; vm_compute; reflexivity. Qed.

(** The call for "nope" is a random-mode call. *)
Lemma unknown_sid_goes_random_witness :
  exists m, In m ["train"; "valid"] /\
    run (load "train" 1 (Some "nope") (Some 0) false) w_demo =
    run (load m 1 None None false) w_demo.
Proof.
  apply (unknown_sid_goes_random w_demo "train" 1 "nope" 0 false). reflexivity.
Defined.

(** C2, as stated, fails: the coin of the only draw selects the positive
    branch, the study [s1] has no labelled voxel, and what leaves [load]
    is the [IndexError] of the access [z[0]] itself. *)
Lemma empty_candidates_is_an_index_error :
  candidates_at w_high rec_s1 (fst (random_rand (rng w_high))) = Ok [] /\
  raised (fst (run (load "valid" 1 None None false) w_high)) = Some IndexError.
Proof. split; vm_compute; reflexivity. Qed.

(** The first draw ([k = 0]) from the validation cohort, coin above 0.5. *)
Lemma empty_candidates_raise_IndexError_witness :
  fst (run (load "valid" 1 None None false) w_high) = Err IndexError.
Proof.
  refine (empty_candidates_raise_IndexError w_high "valid" 1 false [rec_s1] [0]
            (snd (random_randint 0 1 1 (rng w_high))) 0 ([], [], [])
            (with_rng w_high (snd (random_randint 0 1 1 (rng w_high)))) 0 rec_s1
            eq_refl _ eq_refl eq_refl eq_refl _ _).
  - vm_compute. reflexivity.
  - vm_compute. reflexivity.
  - vm_compute. reflexivity.
Defined.

(** C3, as stated, fails: the positive voxels of [s1] have no variance;
    the summary that is built records the study with [sd = 0], and [load]
    returns a tensor of infinities and not-a-numbers without raising. *)
Lemma zero_sd_is_recorded_and_returned :
  summary w_built = {| train := [rec_s1]; valid := [] |} /\
  sd rec_s1 = Fin 0 /\
  holds (fun b => forallb (fun x => negb (is_finite x)) (data (dats b)))
        (fst (run (load "train" 1 (Some "s1") (Some 0) false) w_built)) = true.
Proof. repeat split; vm_compute; reflexivity. Qed.

(** The study [s1] of the summary just built, slice 0. *)
Lemma zero_sd_is_divided_by_witness :
  fst (run (load "train" 1 (Some "s1") (Some 0) false) w_built)
  = Ok (batch_written w_built [(rec_s1, 0)] false).
Proof.
  refine (proj1 (zero_sd_is_divided_by w_built "train" 1 "s1" 0 false rec_s1 0 _ eq_refl
                   eq_refl _)).
  - vm_compute. reflexivity.
  - vm_compute. reflexivity.
Defined.

(** The summary of the fresh root, which holds [s1] alone. *)
Lemma create_summary_partitions_witness :
  let scanned := map (fun f => basename (dirname f))
                     (glob_result w_fresh ("../data" ++ "/*/dat.npy")) in
  exists (s : @Summary xq) (tagged : list (bool * @StudyRecord xq)),
    pickles (snd (run (create_summary "../data" (of_Q (2 # 10))) w_fresh))
            ("../data" ++ "/data.pickle") = Some s /\
    map (fun t => studyid (snd t)) tagged = scanned /\
    train s = map snd (filter fst tagged) /\
    valid s = map snd (filter (fun t => negb (fst t)) tagged) /\
    Permutation (map studyid (train s ++ valid s)) scanned /\
    (NoDup scanned -> NoDup (map studyid (train s ++ valid s))).
Proof.
  apply (create_summary_partitions w_fresh "../data" (of_Q (2 # 10))).
  vm_compute. reflexivity.
Defined.

(** * Further properties of the three functions *)

Section LoaderMore.

Context {F : Type} {NF : NumpyFloat F}.

#[local] Abbreviation World := (@World F).
#[local] Abbreviation Summary := (@Summary F).
#[local] Abbreviation StudyRecord := (@StudyRecord F).
#[local] Abbreviation Prog := (@Prog F).
#[local] Abbreviation event := (@event F).

(** ** Calls of [load] that raise *)

(** X1.  In random mode (no [sid], or no [z]) a [mode] that is neither
    'train' nor 'valid' raises [KeyError] at [summary[mode]], before
    anything is drawn or read. *)
Theorem load_unknown_mode_KeyError (w : World) (mode : string) (n : Z) (sid : option string)
  (z : option Z) (return_mask : bool) :
  mode <> "train" -> mode <> "valid" ->
  sid = None \/ z = None ->
  run (load mode n sid z return_mask) w = (Err KeyError, w).
Proof.
  intros Ht Hv Hsz. rewrite (load_without_both mode n sid z return_mask Hsz).
  rewrite run_load_random. unfold summary_get.
  apply String.eqb_neq in Ht. apply String.eqb_neq in Hv. rewrite Ht, Hv. reflexivity.
Qed.

(** X2.  In random mode a count [n <= 0] raises [ValueError] for either
    cohort: a negative size is refused by [randint], and with [n = 0]
    there is nothing to stack. *)
Theorem load_nonpositive_count_ValueError (w : World) (mode : string) (n : Z)
  (return_mask : bool) :
  mode = "train" \/ mode = "valid" ->
  n <= 0 ->
  fst (run (load mode n None None return_mask) w) = Err ValueError.
Proof.
  intros Hm Hn. rewrite run_load_random.
  assert (Hc : exists cohort, summary_get (summary w) mode = Ok cohort).
  { destruct Hm as [-> | ->]; eexists; reflexivity. }
  destruct Hc as [cohort ->]. unfold random_randint.
  destruct ((len cohort <=? 0) || (n <? 0)) eqn:E; [reflexivity |].
  apply orb_false_iff in E. destruct E as [_ E]. apply Z.ltb_ge in E.
  assert (n = 0) by lia. subst n. reflexivity.
Qed.

(** X3.  In random mode an empty cohort raises [ValueError], whatever
    the count: [randint(0, 0, n)] has no integer to draw. *)
Theorem load_empty_cohort_ValueError (w : World) (mode : string) (n : Z) (return_mask : bool) :
  summary_get (summary w) mode = Ok [] ->
  run (load mode n None None return_mask) w = (Err ValueError, w).
Proof.
  intros Hc. rewrite run_load_random, Hc. cbn. f_equal. apply with_rng_id.
Qed.

Lemma normalize_index_out_of_range (z S : Z) :
  z < - S \/ S <= z -> normalize_index z S = None.
Proof.
  intros Hz. unfold normalize_index.
  destruct ((0 <=? z) && (z <? S)) eqn:E1.
  - apply andb_true_iff in E1. destruct E1 as [E1 E2].
    apply Z.leb_le in E1. apply Z.ltb_lt in E2. lia.
  - destruct ((- S <=? z) && (z <? 0)) eqn:E2; [| reflexivity].
    apply andb_true_iff in E2. destruct E2 as [E2 E3].
    apply Z.leb_le in E2. apply Z.ltb_lt in E3.
    apply andb_false_iff in E1. destruct E1 as [E1 | E1];
      [apply Z.leb_gt in E1 | apply Z.ltb_ge in E1]; lia.
Qed.

Lemma take_slice_out_of_range (r : StudyRecord) (dat lbl : ndarray Z) (z S : Z)
  (rest : list Z) :
  shape dat = S :: rest -> (z < - S \/ S <= z) ->
  take_slice r dat lbl z = Err IndexError.
Proof.
  intros Hs Hz. unfold take_slice, getitem0_first_channel, getitem0.
  rewrite Hs, (normalize_index_out_of_range z S Hz). reflexivity.
Qed.

(** X4.  In exact mode a slice index outside [-S, S), for a study that is
    found and whose volumes open, with [S] slices in the input volume,
    raises [IndexError]; the state is untouched. *)
Theorem exact_mode_out_of_range_IndexError (w : World) (mode : string) (n : Z) (sid : string)
  (z S : Z) (return_mask : bool) (r : StudyRecord) :
  first_match (summary w) sid = Some r ->
  n_slices (dat_volume w r) = Some S ->
  is_ok (lbl_volume w r) = true ->
  z < - S \/ S <= z ->
  run (load mode n (Some sid) (Some z) return_mask) w = (Err IndexError, w).
Proof.
  intros Hm Hd Hl Hz. rewrite (load_exact w mode n sid z return_mask r Hm).
  f_equal. unfold batch_of. cbn [fetch_all]. unfold fetch. cbn [fst snd].
  destruct (dat_volume w r) as [dat |] eqn:Ed; [| discriminate].
  destruct (lbl_volume w r) as [lbl |] eqn:El; [| discriminate].
  destruct (dat_volume_ok _ _ _ Ed) as (_ & S1 & Hs1 & _).
  assert (S1 = S) by (eapply (n_slices_shape (Ok dat)); eauto). subst S1.
  cbn [result_bind]. rewrite (take_slice_out_of_range r dat lbl z S _ Hs1 Hz). reflexivity.
Qed.

(** X5.  In exact mode, for a study that is found, a missing input file
    (or a missing label file beside a good input file) raises
    [FileNotFoundError]: the summary is not checked against the disk. *)
Theorem exact_mode_missing_file (w : World) (mode : string) (n : Z) (sid : string) (z : Z)
  (return_mask : bool) (r : StudyRecord) :
  first_match (summary w) sid = Some r ->
  files w (root w ++ "/" ++ studyid r ++ "/dat.npy") = None \/
  (is_ok (dat_volume w r) = true /\
   files w (root w ++ "/" ++ studyid r ++ "/lbl.npy") = None) ->
  run (load mode n (Some sid) (Some z) return_mask) w = (Err FileNotFoundError, w).
Proof.
  intros Hm Hf. rewrite (load_exact w mode n sid z return_mask r Hm).
  f_equal. unfold batch_of. cbn [fetch_all]. unfold fetch. cbn [fst snd].
  destruct Hf as [Hd | [Hd Hl]].
  - unfold dat_volume. rewrite Hd. reflexivity.
  - destruct (dat_volume w r) as [dat |]; [| discriminate].
    unfold lbl_volume. rewrite Hl. reflexivity.
Qed.

Lemma int16_of_bytes_length (bs : list byte) :
  len (int16_of_bytes bs) = len bs / 2.
Proof.
  assert (H : forall k (l : list byte), (length l <= k)%nat ->
            len (int16_of_bytes l) = len l / 2).
  { induction k as [| k IH]; intros l Hl.
    - destruct l; [reflexivity | simpl in Hl; lia].
    - destruct l as [| a [| b l]]; try reflexivity.
      cbn [int16_of_bytes]. unfold len in *. cbn [length].
      rewrite !Nat2Z.inj_succ. rewrite (IH l) by (simpl in Hl; lia).
      replace (Z.succ (Z.succ (Z.of_nat (length l)))) with (Z.of_nat (length l) + 1 * 2) by lia.
      rewrite Z.div_add by lia. lia. }
  apply (H (length bs)). lia.
Qed.

(** X6.  In exact mode, for a study that is found, an input file whose
    size is not a multiple of one slice (240 x 240 x 4 int16 values,
    460800 bytes) raises [ValueError]: an empty file at the mapping, an
    odd size at the mapping, any other size at the reshape. *)
Theorem exact_mode_truncated_volume_ValueError (w : World) (mode : string) (n : Z)
  (sid : string) (z : Z) (return_mask : bool) (r : StudyRecord) (bs : list byte) :
  first_match (summary w) sid = Some r ->
  files w (root w ++ "/" ++ studyid r ++ "/dat.npy") = Some bs ->
  len bs = 0 \/ len bs mod 460800 <> 0 ->
  run (load mode n (Some sid) (Some z) return_mask) w = (Err ValueError, w).
Proof.
  intros Hm Hf Hb. rewrite (load_exact w mode n sid z return_mask r Hm).
  f_equal. unfold batch_of. cbn [fetch_all]. unfold fetch. cbn [fst snd].
  assert (Hd : dat_volume w r = Err ValueError).
  { unfold dat_volume, memmap. rewrite Hf.
    destruct (len bs =? 0) eqn:E0; [reflexivity |].
    apply Z.eqb_neq in E0. destruct Hb as [Hb | Hb]; [congruence |].
    change (itemsize np_int16) with 2.
    destruct (len bs mod 2 =? 0) eqn:E2; [| reflexivity].
    apply Z.eqb_eq in E2. cbn [negb result_bind]. unfold reshape_infer. cbn [data decode].
    change (prod_shape [240; 240; 4]) with 230400.
    rewrite int16_of_bytes_length.
    replace (len bs / 2 mod 230400 =? 0) with false; [reflexivity |].
    symmetry. apply Z.eqb_neq. intros H. apply Hb.
    assert (Hq : len bs = 2 * (len bs / 2)) by (apply Z.div_exact; lia).
    assert (Hr : len bs / 2 = 230400 * (len bs / 2 / 230400)) by (apply Z.div_exact; lia).
    rewrite Hq, Hr. replace (2 * (230400 * (len bs / 2 / 230400)))
      with ((len bs / 2 / 230400) * 460800) by lia.
    apply Z.mod_mul. lia. }
  rewrite Hd. reflexivity.
Qed.

(** X7.  An exact-mode call for a study that is found can be repeated:
    it leaves the state, generator included, as it found it, so the same
    call made next has the same outcome. *)
Theorem exact_mode_repeatable (w : World) (mode : string) (n : Z) (sid : string) (z : Z)
  (return_mask : bool) (r : StudyRecord) :
  first_match (summary w) sid = Some r ->
  let first := run (load mode n (Some sid) (Some z) return_mask) w in
  snd first = w /\
  run (load mode n (Some sid) (Some z) return_mask) (snd first) = first.
Proof.
  intros Hm. cbv zeta. rewrite (load_exact w mode n sid z return_mask r Hm). cbn [snd].
  split; [reflexivity |]. apply load_exact. exact Hm.
Qed.

(** ** What a returned batch holds, continued *)

Lemma raw_label_range (w : World) (r : StudyRecord) (z : Z) :
  Forall (fun v => 0 <= v < 256) (raw_slice (lbl_volume w r) z).
Proof.
  unfold raw_slice. destruct (lbl_volume w r) as [lbl |] eqn:El; cbn [result_bind]; [| constructor].
  destruct (getitem0 lbl z) as [s |] eqn:Eg; [| constructor].
  apply getitem0_ok in Eg. destruct Eg as (n0 & rest & i & _ & _ & _ & _ & ->).
  apply Forall_sub_block. apply (lbl_volume_ok _ _ _ El).
Qed.

(** X8.  The label tensor of a returned batch, in either mode, holds the
    label slices of the very pairs (study, slice index) whose input slices
    the input tensor holds, in the same order, as they are on disk:
    unnormalised [uint8] values.  The pairs are the selection of the call
    (the pair (first match, [z]) in exact mode, the [n] pairs the
    generator draws in random mode): there is at least one, each can be
    fetched, and the label tensor has one [240 x 240 x 1] slice per pair. *)
Theorem load_labels_pass_through (w : World) (mode : string) (n : Z) (sid : option string)
  (z : option Z) (return_mask : bool) :
  is_ok (fst (run (load mode n sid z return_mask) w)) = true ->
  exists b picks,
    fst (run (load mode n sid z return_mask) w) = Ok b /\
    is_selection w mode n sid z picks /\
    picks <> [] /\
    Forall (fun p => In (fst p) (train (summary w) ++ valid (summary w)) /\
                     is_ok (fetch w p) = true /\
                     len (raw_slice (lbl_volume w (fst p)) (snd p)) = 240 * 240 * 1) picks /\
    data (dats b) =
      concat (map (fun p => normalize (fst p) (raw_slice (dat_volume w (fst p)) (snd p))) picks) /\
    data (lbls b) =
      concat (map (fun p => raw_slice (lbl_volume w (fst p)) (snd p)) picks) /\
    shape (lbls b) = [len picks; 240; 240; 1] /\
    len (data (lbls b)) = len picks * (240 * 240 * 1) /\
    dtype (lbls b) = np_uint8 /\
    Forall (fun v => 0 <= v < 256) (data (lbls b)).
Proof.
  intros Hok.
  destruct (run (load mode n sid z return_mask) w) as [[b |] w'] eqn:E; [| discriminate].
  apply load_selection in E. destruct E as (picks & Hsel & Hne & Hin & Heach & ->).
  exists (batch_written w picks return_mask), picks. cbn [fst].
  split; [reflexivity |]. split; [exact Hsel |]. split; [exact Hne |].
  split; [| split; [reflexivity | split; [reflexivity | split; [reflexivity | split; [| split; [reflexivity |]]]]]].
  - rewrite Forall_forall in *. intros p Hp. repeat split; auto.
    apply (fetch_lengths w p). auto.
  - cbn [batch_written lbls data]. apply concat_len.
    rewrite Forall_forall in *. intros p Hp. unfold label_of. cbn [data].
    apply (fetch_lengths w p). auto.
  - cbn [batch_written lbls data]. apply Forall_concat, Forall_map, Forall_forall.
    intros p _. apply raw_label_range.
Qed.

(** X9.  The draws of a random-mode call that returns are stratified as
    lines 110-112 say, by the coin the generator gives.  With [inds] the
    [n] indices that [randint] draws from the state of the call, the batch
    is made of [n] pairs, and for each position [k]: the record is
    [summary[mode][inds[k]]], and the slice index is the first of the
    shuffled candidates drawn from the state [wk] that the [k] iterations
    before it have left; it is a slice index of the label volume of that
    record, whose slice has a positive voxel when the coin
    [np.random.rand()] drawn from [wk] exceeds 0.5, and has none
    otherwise. *)
Theorem random_draws_are_stratified (w : World) (mode : string) (n : Z) (return_mask : bool) :
  is_ok (fst (run (load mode n None None return_mask) w)) = true ->
  exists cohort inds g picks,
    summary_get (summary w) mode = Ok cohort /\
    random_randint 0 (len cohort) n (rng w) = (Ok inds, g) /\
    len inds = n /\ len picks = n /\
    fst (run (load mode n None None return_mask) w) = Ok (batch_written w picks return_mask) /\
    forall k ind, nth_error inds k = Some ind ->
      exists r zk lbl S acc wk,
        nth_error picks k = Some (r, zk) /\
        list_getitem cohort ind = Ok r /\
        run (for_each (load_one mode None) (firstn k inds) ([], [], [])) (with_rng w g)
          = (Ok acc, wk) /\
        lbl_volume w r = Ok lbl /\
        drawn_slice lbl (rng wk) = Some zk /\
        n_slices (Ok lbl) = Some S /\ 0 <= zk < S /\
        if fgt (fst (random_rand (rng wk))) (of_Q (1 # 2))
        then has_positive (sub_block (data lbl) zk 57600)
        else ~ has_positive (sub_block (data lbl) zk 57600).
Proof.
  intros Hok.
  destruct (run (load mode n None None return_mask) w) as [[b |] w'] eqn:E; [| discriminate].
  apply load_random_selection in E.
  destruct E as (picks & (cohort & inds & g & Hc & Hr & Hlen & Hall) & _ & _ & _ & ->).
  exists cohort, inds, g, picks. cbn [fst].
  split; [exact Hc |]. split; [exact Hr |].
  split; [apply (random_randint_ok _ _ _ _ _ Hr) |]. split; [exact Hlen |].
  split; [reflexivity |].
  intros k ind Hk. destruct (Hall k ind Hk) as (r & zk & lbl & acc & wk & H1 & H2 & H3 & H4 & H5).
  assert (Hin : In zk (candidates lbl (fst (random_rand (rng wk))))).
  { unfold drawn_slice in H5. destruct (random_rand (rng wk)) as [coin g1]. cbn [fst].
    pose proof (random_shuffle_perm (candidates lbl coin) g1) as P.
    destruct (fst (random_shuffle (candidates lbl coin) g1)) as [| z0 zs]; [discriminate |].
    cbn [hd_error] in H5. apply Some_inj in H5. subst z0.
    apply (Permutation_in zk P). left. reflexivity. }
  apply (candidates_spec w r lbl _ zk H4) in Hin. destruct Hin as (S & HS & Hz & Hp).
  exists r, zk, lbl, S, acc, wk. repeat split; auto; lia.
Qed.

(** ** Study identifiers and paths *)

Lemma list_ascii_of_string_app (a b : string) :
  list_ascii_of_string (a ++ b) = (list_ascii_of_string a ++ list_ascii_of_string b)%list.
Proof. induction a as [| c a IH]; cbn; [reflexivity | f_equal; exact IH]. Qed.

Lemma string_of_list_ascii_app (a b : list ascii) :
  string_of_list_ascii (a ++ b) = string_of_list_ascii a ++ string_of_list_ascii b.
Proof. induction a as [| c a IH]; cbn; [reflexivity | f_equal; exact IH]. Qed.

Lemma split_last_slash_app (t h : list ascii) :
  forallb (fun c => negb (is_slash c)) t = true ->
  split_last_slash (t ++ slash :: h) = (t, slash :: h).
Proof.
  induction t as [| c t IH]; intros H.
  - cbn [app split_last_slash]. unfold is_slash. rewrite Ascii.eqb_refl. reflexivity.
  - cbn [forallb] in H. apply andb_true_iff in H. destruct H as [Hc Ht].
    cbn [app split_last_slash]. apply negb_true_iff in Hc. rewrite Hc, (IH Ht). reflexivity.
Qed.

Lemma forallb_rev {T} (f : T -> bool) (l : list T) : forallb f (rev l) = forallb f l.
Proof.
  destruct (forallb f l) eqn:E.
  - apply forallb_forall. intros x Hx. apply in_rev in Hx.
    rewrite forallb_forall in E. auto.
  - destruct (forallb f (rev l)) eqn:E'; [| reflexivity].
    assert (forallb f l = true); [| congruence].
    apply forallb_forall. intros x Hx. apply in_rev in Hx.
    rewrite forallb_forall in E'. auto.
Qed.

(** [root/d] has basename [d], for a directory entry [d]. *)
Lemma basename_join (root d : string) :
  no_slash d = true -> basename (root ++ "/" ++ d) = d.
Proof.
  intros Hd. unfold basename.
  rewrite list_ascii_of_string_app. cbn [append list_ascii_of_string].
  change "/"%char with slash.
  rewrite rev_app_distr. cbn [rev]. rewrite <- app_assoc. cbn [app].
  rewrite split_last_slash_app by (rewrite forallb_rev; exact Hd).
  cbn [fst]. rewrite rev_involutive. apply string_of_list_ascii_of_string.
Qed.

(** [root/d/name] has dirname [root/d], for non-empty entries. *)
Lemma dirname_join (root d name : string) :
  d <> "" -> no_slash d = true -> no_slash name = true ->
  dirname (root ++ "/" ++ d ++ "/" ++ name) = root ++ "/" ++ d.
Proof.
  intros Hne Hd Hn. unfold dirname.
  rewrite !list_ascii_of_string_app. cbn [append list_ascii_of_string app].
  change "/"%char with slash.
  set (R := list_ascii_of_string root). set (D := list_ascii_of_string d).
  set (N := list_ascii_of_string name).
  replace (rev (R ++ slash :: D ++ slash :: N))
    with (rev N ++ slash :: (rev D ++ slash :: rev R))%list.
  2: { rewrite rev_app_distr. cbn [rev]. rewrite rev_app_distr. cbn [rev].
       rewrite <- !app_assoc. reflexivity. }
  rewrite split_last_slash_app by (rewrite forallb_rev; exact Hn).
  cbn [snd].
  assert (HD : exists c rest, rev D = c :: rest /\ is_slash c = false).
  { destruct (rev D) as [| c rest] eqn:E.
    - exfalso. apply Hne. rewrite <- (string_of_list_ascii_of_string d).
      fold D. rewrite <- (rev_involutive D), E. reflexivity.
    - exists c, rest. split; [reflexivity |].
      assert (Hall : forallb (fun c => negb (is_slash c)) (rev D) = true)
        by (rewrite forallb_rev; exact Hd).
      rewrite E in Hall. cbn [forallb] in Hall. apply andb_true_iff in Hall.
      apply negb_true_iff. apply Hall. }
  destruct HD as (c & rest & E & Hc). rewrite E.
  cbn [forallb app drop_slashes]. change (is_slash slash) with true.
  rewrite Hc. cbn [andb].
  change (c :: (rest ++ slash :: rev R)%list) with ((c :: rest) ++ slash :: rev R)%list.
  rewrite <- E. rewrite rev_app_distr. cbn [rev]. rewrite !rev_involutive, <- app_assoc.
  cbn [app]. rewrite string_of_list_ascii_app. cbn [string_of_list_ascii].
  unfold R, D. rewrite !string_of_list_ascii_of_string. reflexivity.
Qed.

(** X10.  The identifier [create_summary] records for a scanned file
    [root/d/dat.npy] (line 45) is the directory entry [d], and the path
    [load] formats from that identifier (line 99) is the scanned file
    again: a summary built under a root makes [load] read back the very
    files that were scanned, for any [root] and any non-empty entry [d]. *)
Theorem study_id_round_trip (root d : string) :
  d <> "" -> no_slash d = true ->
  basename (dirname (root ++ "/" ++ d ++ "/dat.npy")) = d /\
  root ++ "/" ++ basename (dirname (root ++ "/" ++ d ++ "/dat.npy")) ++ "/dat.npy"
  = root ++ "/" ++ d ++ "/dat.npy".
Proof.
  intros Hne Hd.
  assert (H : basename (dirname (root ++ "/" ++ d ++ "/dat.npy")) = d).
  { change (root ++ "/" ++ d ++ "/dat.npy") with (root ++ "/" ++ d ++ "/" ++ "dat.npy").
    rewrite (dirname_join root d "dat.npy" Hne Hd eq_refl). apply basename_join. exact Hd. }
  split; [exact H |]. rewrite H. reflexivity.
Qed.

(** ** Programs with restricted effects *)

Lemma only_bind (ok : forall X, event X -> bool) {A B} (p : Prog A) (f : A -> Prog B) :
  only ok p -> (forall a, only ok (f a)) -> only ok (bind p f).
Proof.
  intros Hp Hf. induction Hp as [a | e | X ev k Hev Hk IH]; cbn [bind]; auto.
  - constructor.
  - constructor; auto.
Qed.

Lemma only_lift (ok : forall X, event X -> bool) {A} (r : result A) : only ok (@lift F A r).
Proof. destruct r; constructor. Qed.

Lemma only_trigger (ok : forall X, event X -> bool) {X} (ev : event X) :
  ok X ev = true -> only ok (trigger ev).
Proof. intros H. constructor; auto. intros; constructor. Qed.

Lemma only_for_each (ok : forall X, event X -> bool) {A S} (body : S -> A -> Prog S)
  (items : list A) (acc : S) :
  (forall acc x, only ok (body acc x)) -> only ok (for_each body items acc).
Proof.
  intros Hb. revert acc. induction items as [| x items IH]; intros acc; cbn [for_each].
  - constructor.
  - apply only_bind; auto.
Qed.

(** A relation between states that every permitted effect respects is
    respected by the whole run. *)
Lemma only_run (ok : forall X, event X -> bool) (R : World -> World -> Prop) {A} (p : Prog A) :
  (forall w, R w w) ->
  (forall a b c, R a b -> R b c -> R a c) ->
  (forall X (ev : event X) w, ok X ev = true -> R w (snd (handle ev w))) ->
  only ok p -> forall w, R w (snd (run p w)).
Proof.
  intros Hrefl Htrans Hstep Hp. induction Hp as [a | e | X ev k Hev Hk IH]; intros w; cbn [run snd].
  - apply Hrefl.
  - apply Hrefl.
  - pose proof (Hstep X ev w Hev) as H1. destruct (handle ev w) as [x w1]. cbn [snd] in H1.
    eapply Htrans; [exact H1 | apply IH].
Qed.

Ltac only_step :=
  repeat first
    [ apply only_bind; [| intros ? ]
    | apply only_trigger; reflexivity
    | apply only_lift
    | apply only_ret
    | apply only_raise ].

Lemma summarize_one_writes_nothing (valid_ratio : F) (acc : Summary) (item : Z * string) :
  only writes_nothing (summarize_one valid_ratio acc item).
Proof. destruct item as [n dfile]. unfold summarize_one, np_memmap. only_step. Qed.

Lemma create_summary_assigns_no_global (root : string) (valid_ratio : F) :
  only assigns_no_global (create_summary root valid_ratio).
Proof.
  unfold create_summary. only_step.
  apply only_for_each. intros acc [n dfile]. unfold summarize_one, np_memmap. only_step.
Qed.

Lemma writes_nothing_same_disk {X} (ev : event X) (w : World) :
  writes_nothing ev = true -> same_disk w (snd (handle ev w)).
Proof.
  unfold same_disk. destruct ev; try discriminate; intros _; cbn; repeat split.
  - destruct (random_randint low high n (rng w)); reflexivity.
  - destruct (random_randint low high n (rng w)); reflexivity.
  - destruct (random_randint low high n (rng w)); reflexivity.
  - destruct (random_randint low high n (rng w)); reflexivity.
  - destruct (random_randint low high n (rng w)); reflexivity.
  - destruct (random_shuffle z (rng w)); reflexivity.
  - destruct (random_shuffle z (rng w)); reflexivity.
  - destruct (random_shuffle z (rng w)); reflexivity.
  - destruct (random_shuffle z (rng w)); reflexivity.
  - destruct (random_shuffle z (rng w)); reflexivity.
Qed.

Lemma same_disk_run {A} (p : Prog A) (w : World) :
  only writes_nothing p -> same_disk w (snd (run p w)).
Proof.
  intros Hp. apply (only_run writes_nothing same_disk p); auto.
  - intros w0. unfold same_disk. repeat split.
  - unfold same_disk. intros a b c (H1 & H2 & H3 & H4 & H5) (G1 & G2 & G3 & G4 & G5).
    repeat split; congruence.
  - intros X ev w0. apply writes_nothing_same_disk.
Qed.

(** ** [create_summary], continued *)

(** The loop of [create_summary] reads, draws and prints. *)
Lemma summarize_loop_same_disk (valid_ratio : F) (items : list (Z * string)) (acc : Summary)
  (w : World) :
  same_disk w (snd (run (for_each (summarize_one valid_ratio) items acc) w)).
Proof.
  apply same_disk_run. apply only_for_each. apply summarize_one_writes_nothing.
Qed.

(** The call step by step: the scan, the loop, the dump. *)
Lemma run_create_summary (w : World) (root : string) (valid_ratio : F) :
  run (create_summary root valid_ratio) w =
  match run (for_each (summarize_one valid_ratio)
               (enumerate (glob_result w (root ++ "/*/dat.npy")))
               {| train := []; valid := [] |}) w with
  | (Ok s, w1) =>
      if dirs w (dirname (root ++ "/data.pickle"))
      then (Ok tt, with_pickle w1 (root ++ "/data.pickle") s)
      else (Err FileNotFoundError, w1)
  | (Err e, w1) => (Err e, w1)
  end.
Proof.
  unfold create_summary. cbn [bind trigger run handle]. rewrite run_bind.
  pose proof (summarize_loop_same_disk valid_ratio
    (enumerate (glob_result w (root ++ "/*/dat.npy"))) {| train := []; valid := [] |} w)
    as (_ & _ & _ & Hd & _).
  destruct (run (for_each _ _ _) w) as [[s |] w1]; [| reflexivity].
  cbn [snd] in Hd. cbn [bind run handle]. unfold handle. rewrite <- Hd.
  destruct (dirs w1 (dirname (root ++ "/data.pickle"))); reflexivity.
Qed.

(** X11.  [create_summary] writes at most one thing: whatever its
    outcome, the module globals (so the summary [load] uses, until
    [set_root] is called again), the volume files and every pickle file
    other than [root/data.pickle] are as before. *)
Theorem create_summary_leaves_module (w : World) (root : string) (valid_ratio : F) :
  let w' := snd (run (create_summary root valid_ratio) w) in
  globals w' = globals w /\ files w' = files w /\
  (forall p, p <> root ++ "/data.pickle" -> pickles w' p = pickles w p).
Proof.
  cbv zeta. rewrite run_create_summary.
  pose proof (summarize_loop_same_disk valid_ratio
    (enumerate (glob_result w (root ++ "/*/dat.npy"))) {| train := []; valid := [] |} w)
    as (Hg & Hf & Hp & _ & _).
  destruct (run (for_each _ _ _) w) as [[s |] w1]; cbn [snd] in *.
  - destruct (dirs w (dirname (root ++ "/data.pickle"))); cbn [snd].
    + repeat split; auto. intros p Hne. cbn [with_pickle pickles]. unfold set_file.
      apply String.eqb_neq in Hne. rewrite Hne, Hp. reflexivity.
    + repeat split; auto. intros; rewrite Hp; reflexivity.
  - repeat split; auto. intros; rewrite Hp; reflexivity.
Qed.

(** X12.  [create_summary] is all or nothing: when it raises (a scanned
    file that cannot be mapped, a directory that cannot be written) no
    summary file is written or changed, the one at [root/data.pickle]
    included. *)
Theorem create_summary_all_or_nothing (w : World) (root : string) (valid_ratio : F) :
  is_ok (fst (run (create_summary root valid_ratio) w)) = false ->
  pickles (snd (run (create_summary root valid_ratio) w)) = pickles w.
Proof.
  rewrite run_create_summary.
  pose proof (summarize_loop_same_disk valid_ratio
    (enumerate (glob_result w (root ++ "/*/dat.npy"))) {| train := []; valid := [] |} w)
    as (_ & _ & Hp & _ & _).
  destruct (run (for_each _ _ _) w) as [[s |] w1]; cbn [snd] in *.
  - destruct (dirs w (dirname (root ++ "/data.pickle"))); cbn [fst snd]; [discriminate | auto].
  - auto.
Qed.

(** X13.  A scan that finds nothing is not an error: [create_summary]
    writes a summary with two empty cohorts, draws nothing and prints
    nothing; it raises [FileNotFoundError], and writes nothing, only when
    the directory of the summary file does not exist. *)
Theorem create_summary_empty_scan (w : World) (root : string) (valid_ratio : F) :
  glob_result w (root ++ "/*/dat.npy") = [] ->
  run (create_summary root valid_ratio) w =
  if dirs w (dirname (root ++ "/data.pickle"))
  then (Ok tt, with_pickle w (root ++ "/data.pickle") {| train := []; valid := [] |})
  else (Err FileNotFoundError, w).
Proof. intros Hg. rewrite run_create_summary, Hg. reflexivity. Qed.

Lemma run_summarize_one_stdout (valid_ratio : F) (acc acc' : Summary) (item : Z * string)
  (w w' : World) :
  run (summarize_one valid_ratio acc item) w = (Ok acc', w') ->
  stdout w' = (stdout w ++ [(fst item + 1, snd item)])%list.
Proof.
  destruct item as [n dfile]. unfold summarize_one. simpl.
  destruct (memmap (files w dfile) np_int16) as [dat |]; simpl; try discriminate.
  destruct (fgt (random_sample _) valid_ratio); simpl; intros H; inversion H; reflexivity.
Qed.

Lemma run_summarize_all_stdout (valid_ratio : F) (items : list (Z * string)) :
  forall (acc acc' : Summary) (w w' : World),
  run (for_each (summarize_one valid_ratio) items acc) w = (Ok acc', w') ->
  stdout w' = (stdout w ++ map (fun it => (fst it + 1, snd it)) items)%list.
Proof.
  induction items as [| item items IH]; intros acc acc' w w' H.
  - cbn in H. inversion H; subst. cbn. rewrite app_nil_r. reflexivity.
  - rewrite run_for_each_cons in H.
    destruct (run (summarize_one valid_ratio acc item) w) as [[acc1 |] w1] eqn:E1;
      try discriminate.
    apply run_summarize_one_stdout in E1. apply IH in H. rewrite H, E1.
    cbn [map]. rewrite <- app_assoc. reflexivity.
Qed.

Lemma enumerate_from_fst {T} (l : list T) (k : Z) :
  map (fun it => (fst it + 1, snd it)) (enumerate_from k l)
  = enumerate_from (k + 1) l.
Proof.
  revert k. induction l as [| x l IH]; intros k; cbn; [reflexivity |]. f_equal. apply IH.
Qed.

(** X14.  A build that completes has printed one progress line per
    scanned file, in scan order and numbered from 1, after whatever was
    printed before. *)
Theorem create_summary_progress_lines (w : World) (root : string) (valid_ratio : F) :
  is_ok (fst (run (create_summary root valid_ratio) w)) = true ->
  stdout (snd (run (create_summary root valid_ratio) w))
  = (stdout w ++ enumerate_from 1 (glob_result w (root ++ "/*/dat.npy")))%list.
Proof.
  rewrite run_create_summary.
  destruct (run (for_each _ _ _) w) as [[s |] w1] eqn:E; [| discriminate].
  apply run_summarize_all_stdout in E. unfold enumerate in E. rewrite enumerate_from_fst in E.
  destruct (dirs w (dirname (root ++ "/data.pickle"))); [| discriminate].
  intros _. cbn [snd with_pickle stdout]. exact E.
Qed.

(** ** [set_root] *)

Lemma pickles_with_pickle (w : World) (p : string) (s : Summary) :
  pickles (with_pickle w p s) p = Some s.
Proof. cbn. unfold set_file. rewrite String.eqb_refl. reflexivity. Qed.

(** The call step by step: the location, the assignment of [root], the
    build when no summary file exists, the load, the assignment of
    [summary]. *)
Lemma run_set_root (w : World) (loc : option string) :
  run (set_root loc) w =
  match (if path_exists w (resolve_root w loc ++ "/data.pickle")
         then (Ok tt, with_root w (resolve_root w loc))
         else run (create_summary (resolve_root w loc) (of_Q (2 # 10)))
                  (with_root w (resolve_root w loc))) with
  | (Err e, w2) => (Err e, w2)
  | (Ok _, w2) =>
      match pickles w2 (resolve_root w loc ++ "/data.pickle") with
      | Some s => (Ok tt, with_summary w2 s)
      | None =>
          (Err (if is_some (files w2 (resolve_root w loc ++ "/data.pickle"))
                then UnpicklingError else FileNotFoundError), w2)
      end
  end.
Proof.
  assert (H : forall l,
    run (set_root (Some l)) w =
    match (if path_exists w (l ++ "/data.pickle")
           then (Ok tt, with_root w l)
           else run (create_summary l (of_Q (2 # 10))) (with_root w l)) with
    | (Err e, w2) => (Err e, w2)
    | (Ok _, w2) =>
        match pickles w2 (l ++ "/data.pickle") with
        | Some s => (Ok tt, with_summary w2 s)
        | None => (Err (if is_some (files w2 (l ++ "/data.pickle"))
                        then UnpicklingError else FileNotFoundError), w2)
        end
    end).
  { intros l. unfold set_root. cbn [bind trigger run handle root].
    change (path_exists _ (l ++ "/data.pickle")) with (path_exists w (l ++ "/data.pickle")).
    rewrite run_bind.
    destruct (path_exists w (l ++ "/data.pickle")).
    - cbn [run bind handle]. unfold handle.
      cbn [pickles files with_root].
      destruct (pickles w (l ++ "/data.pickle")); [reflexivity |].
      destruct (is_some (files w (l ++ "/data.pickle"))); reflexivity.
    - cbn [bind run handle root].
      fold (with_root w l).
      destruct (run (create_summary l (of_Q (2 # 10))) (with_root w l)) as [[u |] w2];
        [| reflexivity].
      cbn [run bind handle]. unfold handle.
      destruct (pickles w2 (l ++ "/data.pickle")); [reflexivity |].
      destruct (is_some (files w2 (l ++ "/data.pickle"))); reflexivity. }
  destruct loc as [l |]; [apply H |].
  rewrite <- (H (resolve_root w None)). unfold set_root, resolve_root.
  cbn [bind trigger run handle]. destruct (path_exists w "/data/brats/npy"); reflexivity.
Qed.

Lemma set_root_loads_existing_aux (w : World) (loc : option string) (s : Summary) :
  pickles w (resolve_root w loc ++ "/data.pickle") = Some s ->
  run (set_root loc) w = (Ok tt, with_summary (with_root w (resolve_root w loc)) s).
Proof.
  intros Hp. rewrite run_set_root. unfold path_exists. rewrite Hp.
  cbn [is_some]. rewrite orb_true_r. cbn [with_root pickles]. rewrite Hp. reflexivity.
Qed.

(** X15.  When a summary file exists at the location, [set_root] loads
    it and builds nothing: [root] becomes the location ([loc], or by
    default '/data/brats/npy' when that path exists and '../data'
    otherwise), [summary] becomes the pickled summary, and nothing else
    changes: no file is scanned or written, nothing is drawn or printed. *)
Theorem set_root_loads_existing (w : World) (loc : option string) (s : Summary) :
  pickles w (resolve_root w loc ++ "/data.pickle") = Some s ->
  run (set_root loc) w = (Ok tt, with_summary (with_root w (resolve_root w loc)) s).
Proof.
  intros Hp. rewrite run_set_root.
  assert (He : path_exists w (resolve_root w loc ++ "/data.pickle") = true).
  { unfold path_exists. rewrite Hp. cbn [is_some]. apply orb_true_r. }
  rewrite He. cbn [with_root pickles]. rewrite Hp. reflexivity.
Qed.

(** X16.  When no summary file exists at the location and the build
    completes, the module ends up holding exactly the summary that was
    just written there: [summary] is what [root/data.pickle] now holds,
    [root] is the location, and the state is otherwise the one the build
    left. *)
Theorem set_root_builds_when_missing (w : World) (loc : option string) :
  path_exists w (resolve_root w loc ++ "/data.pickle") = false ->
  is_ok (fst (run (create_summary (resolve_root w loc) (of_Q (2 # 10)))
                  (with_root w (resolve_root w loc)))) = true ->
  let built := snd (run (create_summary (resolve_root w loc) (of_Q (2 # 10)))
                        (with_root w (resolve_root w loc))) in
  let w' := snd (run (set_root loc) w) in
  fst (run (set_root loc) w) = Ok tt /\
  root w' = resolve_root w loc /\
  pickles w' (resolve_root w loc ++ "/data.pickle") = Some (summary w') /\
  w' = with_summary built (summary w').
Proof.
  intros He Hok. cbv zeta. rewrite run_set_root, He.
  pose proof (create_summary_assigns_no_global (resolve_root w loc) (of_Q (2 # 10))) as Hng.
  rewrite run_create_summary in *.
  destruct (run (for_each _ _ _) (with_root w (resolve_root w loc))) as [[s |] w1] eqn:E;
    [| discriminate].
  pose proof (summarize_loop_same_disk (of_Q (2 # 10))
    (enumerate (glob_result (with_root w (resolve_root w loc))
                  (resolve_root w loc ++ "/*/dat.npy")))
    {| train := []; valid := [] |} (with_root w (resolve_root w loc))) as Hsd.
  rewrite E in Hsd. cbn [snd] in Hsd. destruct Hsd as (Hg & _).
  destruct (dirs (with_root w (resolve_root w loc)) _); [| discriminate].
  rewrite pickles_with_pickle. cbn [fst snd].
  repeat split.
  - unfold globals in Hg. inversion Hg. reflexivity.
  - apply pickles_with_pickle.
Qed.

(** X17.  [set_root] assigns [root] before anything can fail: when the
    call raises (the build fails, or what is at [root/data.pickle] cannot
    be unpickled), [root] is already the new location while [summary] is
    still the old one. *)
Theorem set_root_failure_moves_root (w : World) (loc : option string) :
  is_ok (fst (run (set_root loc) w)) = false ->
  root (snd (run (set_root loc) w)) = resolve_root w loc /\
  summary (snd (run (set_root loc) w)) = summary w.
Proof.
  rewrite run_set_root.
  assert (Hcs : globals (snd (run (create_summary (resolve_root w loc) (of_Q (2 # 10)))
                                  (with_root w (resolve_root w loc))))
                = (resolve_root w loc, summary w)).
  { pose proof (only_run assigns_no_global (fun a b => globals b = globals a)
                 (create_summary (resolve_root w loc) (of_Q (2 # 10)))) as H.
    apply (H ltac:(reflexivity) ltac:(intros; congruence)).
    - intros X ev w0 Hev. destruct ev; try discriminate; cbn; try reflexivity.
      + destruct (dirs w0 (dirname p)); reflexivity.
      + destruct (random_randint low high n (rng w0)); reflexivity.
      + destruct (random_shuffle z (rng w0)); reflexivity.
    - apply create_summary_assigns_no_global. }
  destruct (path_exists w (resolve_root w loc ++ "/data.pickle")).
  - cbn [with_root pickles files].
    destruct (pickles w (resolve_root w loc ++ "/data.pickle")); [discriminate |].
    intros _. split; reflexivity.
  - destruct (run (create_summary _ _) _) as [[u |] w2]; cbn [snd] in Hcs.
    + destruct (pickles w2 _); [discriminate |]. intros _. cbn [snd].
      unfold globals in Hcs. inversion Hcs. split; reflexivity.
    + intros _. cbn [snd]. unfold globals in Hcs. inversion Hcs. split; reflexivity.
Qed.

Lemma with_summary_root_id (w : World) : with_summary (with_root w (root w)) (summary w) = w.
Proof. destruct w; reflexivity. Qed.

(** X18.  [set_root(loc)] is idempotent: after a call that returned, the
    same call returns again and changes nothing, and it rebuilds nothing
    (the summary file written or found the first time is simply loaded). *)
Theorem set_root_idempotent (w : World) (l : string) :
  is_ok (fst (run (set_root (Some l)) w)) = true ->
  run (set_root (Some l)) (snd (run (set_root (Some l)) w))
  = (Ok tt, snd (run (set_root (Some l)) w)).
Proof.
  intros Hok.
  assert (H : root (snd (run (set_root (Some l)) w)) = l /\
              pickles (snd (run (set_root (Some l)) w)) (l ++ "/data.pickle")
              = Some (summary (snd (run (set_root (Some l)) w)))).
  { rewrite run_set_root in *. cbn [resolve_root] in *.
    destruct (path_exists w (l ++ "/data.pickle")).
    - cbn [with_root pickles] in *.
      destruct (pickles w (l ++ "/data.pickle")) eqn:Ep; [| discriminate].
      cbn [snd with_summary with_root root pickles summary]. auto.
    - rewrite run_create_summary in *.
      destruct (run (for_each _ _ _) (with_root w l)) as [[s |] w1] eqn:E; [| discriminate].
      pose proof (summarize_loop_same_disk (of_Q (2 # 10))
        (enumerate (glob_result (with_root w l) (l ++ "/*/dat.npy")))
        {| train := []; valid := [] |} (with_root w l)) as Hsd.
      rewrite E in Hsd. cbn [snd] in Hsd. destruct Hsd as (Hg & _).
      destruct (dirs (with_root w l) _); [| discriminate].
      rewrite pickles_with_pickle. cbn [snd]. split.
      + unfold globals in Hg. inversion Hg. reflexivity.
      + apply pickles_with_pickle. }
  destruct H as [Hr Hp].
  remember (snd (run (set_root (Some l)) w)) as w1 eqn:Hw1. clear Hw1 Hok.
  rewrite (set_root_loads_existing_aux w1 (Some l) _ Hp). cbn [resolve_root].
  rewrite <- Hr, with_summary_root_id. reflexivity.
Qed.

End LoaderMore.

(** ** The split at the ends of the range of [valid_ratio] *)

Lemma xq_sample_below_one (r : N) (q : Q) :
  (1 <= q)%Q -> xq_gt (xq_random_sample r) (Fin q) = false.
Proof.
  intros Hq. unfold xq_random_sample, xq_gt. apply negb_false_iff, Qle_bool_iff.
  rewrite Qred_correct. eapply Qle_trans; [| exact Hq].
  unfold Qle. cbn [Qnum Qden]. rewrite Z.mul_1_r, Z.mul_1_l.
  pose proof (N.mod_lt r (2 ^ 53) ltac:(discriminate)) as H.
  apply N2Z.inj_lt in H. apply Z.lt_le_incl. exact H.
Qed.

Lemma xq_sample_above_negative (r : N) (q : Q) :
  (q < 0)%Q -> xq_gt (xq_random_sample r) (Fin q) = true.
Proof.
  intros Hq. unfold xq_random_sample, xq_gt. apply negb_true_iff.
  destruct (Qle_bool _ q) eqn:E; [| reflexivity]. exfalso.
  apply Qle_bool_iff in E. rewrite Qred_correct in E.
  assert (H0 : (0 <= Z.of_N (r mod 2 ^ 53) # 2 ^ 53)%Q).
  { unfold Qle. cbn [Qnum Qden]. pose proof (N2Z.is_nonneg (r mod 2 ^ 53)). lia. }
  apply (Qlt_irrefl 0). eapply Qle_lt_trans; [exact H0 |]. eapply Qle_lt_trans; eauto.
Qed.

Lemma summarize_all_extremes (q : Q) (items : list (Z * string)) :
  forall (acc acc' : @Summary xq) (w w' : @World xq),
  run (for_each (summarize_one (Fin q)) items acc) w = (Ok acc', w') ->
  let ids := map (fun it => basename (dirname (snd it))) items in
  ((1 <= q)%Q ->
   train acc' = train acc /\ map studyid (valid acc') = (map studyid (valid acc) ++ ids)%list) /\
  ((q < 0)%Q ->
   valid acc' = valid acc /\ map studyid (train acc') = (map studyid (train acc) ++ ids)%list).
Proof.
  induction items as [| [n dfile] items IH]; intros acc acc' w w' H.
  - cbn in H. inversion H; subst. cbn [map]. rewrite !app_nil_r. repeat split; reflexivity.
  - rewrite run_for_each_cons in H.
    destruct (run (summarize_one (Fin q) acc (n, dfile)) w) as [[acc1 |] w1] eqn:E1;
      try discriminate.
    apply IH in H. cbv zeta in H. destruct H as [Ht Hv].
    pose proof (run_summarize_one_eq (Fin q) acc n dfile w) as Hone.
    rewrite E1 in Hone. cbn [fst] in Hone.
    destruct (memmap (files w dfile) np_int16) as [dat |]; [| discriminate].
    cbn [result_bind] in Hone.
    change (fgt (fst (random_rand (rng w))) (Fin q))
      with (xq_gt (xq_random_sample (raw (rng w) (pos (rng w)))) (Fin q)) in Hone.
    cbv zeta. cbn [map snd]. split; intros Hq.
    + destruct (Ht Hq) as [Ht1 Ht2]. rewrite Ht1, Ht2.
      rewrite (xq_sample_below_one _ q Hq) in Hone.
      cbn in Hone. apply Ok_inj in Hone. subst acc1. cbn [train valid].
      rewrite map_app, <- app_assoc. split; reflexivity.
    + destruct (Hv Hq) as [Hv1 Hv2]. rewrite Hv1, Hv2.
      rewrite (xq_sample_above_negative _ q Hq) in Hone.
      cbn in Hone. apply Ok_inj in Hone. subst acc1. cbn [train valid].
      rewrite map_app, <- app_assoc. split; reflexivity.
Qed.

(** X19.  The test [np.random.rand() > valid_ratio] is not guarded: with
    [valid_ratio >= 1] a build that completes puts every scanned study in
    the validation cohort (the training cohort is empty, and the
    validation cohort holds the scanned studies, one record each, in scan
    order), and with [valid_ratio < 0] every scanned study in the training
    cohort, since [rand()] lies in [0, 1). *)
Theorem valid_ratio_extremes (w : @World xq) (root : string) (q : Q) :
  is_ok (fst (run (create_summary root (Fin q)) w)) = true ->
  let scanned := map (fun f => basename (dirname f)) (glob_result w (root ++ "/*/dat.npy")) in
  exists s,
    pickles (snd (run (create_summary root (Fin q)) w)) (root ++ "/data.pickle") = Some s /\
    ((1 <= q)%Q -> train s = [] /\ map studyid (valid s) = scanned) /\
    ((q < 0)%Q -> valid s = [] /\ map studyid (train s) = scanned).
Proof.
  rewrite run_create_summary.
  destruct (run (for_each _ _ _) w) as [[s |] w1] eqn:E; [| discriminate].
  apply summarize_all_extremes in E. cbv zeta in E. cbn [train valid map app] in E.
  unfold enumerate in E.
  rewrite <- (map_map snd (fun f => basename (dirname f))), enumerate_from_snd in E.
  destruct (dirs w (dirname (root ++ "/data.pickle"))); [| discriminate].
  intros _ scanned. exists s. cbn [snd]. split; [apply pickles_with_pickle | exact E].
Qed.

(** * The further properties at work *)

Lemma load_unknown_mode_KeyError_witness :
  run (load "test" 1 None None false) w_demo = (Err KeyError, w_demo).
Proof.
  apply (load_unknown_mode_KeyError w_demo "test" 1 None None false);
    [discriminate | discriminate | left; reflexivity].
Defined.

Lemma load_nonpositive_count_ValueError_witness :
  fst (run (load "train" 0 None None true) w_demo) = Err ValueError.
Proof.
  apply (load_nonpositive_count_ValueError w_demo "train" 0 true); [left; reflexivity | lia].
Defined.

Lemma load_empty_cohort_ValueError_witness :
  run (load "train" 3 None None false) w_pickled = (Err ValueError, w_pickled).
Proof. apply (load_empty_cohort_ValueError w_pickled "train" 3 false). reflexivity. Defined.

Lemma exact_mode_out_of_range_IndexError_witness :
  run (load "train" 1 (Some "s0") (Some 2) false) w_demo = (Err IndexError, w_demo).
Proof.
  apply (exact_mode_out_of_range_IndexError w_demo "train" 1 "s0" 2 2 false rec_s0).
  - reflexivity.
  - vm_compute. reflexivity.
  - vm_compute. reflexivity.
  - right. lia.
Defined.

Lemma exact_mode_missing_file_witness :
  run (load "train" 1 (Some "s1") (Some 0) false) w_damaged = (Err FileNotFoundError, w_damaged).
Proof.
  apply (exact_mode_missing_file w_damaged "train" 1 "s1" 0 false rec_s1).
  - reflexivity.
  - left. reflexivity.
Defined.

Lemma exact_mode_truncated_volume_ValueError_witness :
  run (load "train" 1 (Some "s0") (Some 0) false) w_damaged = (Err ValueError, w_damaged).
Proof.
  apply (exact_mode_truncated_volume_ValueError w_damaged "train" 1 "s0" 0 false rec_s0
           [x01; x00; x02; x00]).
  - reflexivity.
  - reflexivity.
  - right. vm_compute. discriminate.
Defined.

Lemma exact_mode_repeatable_witness :
  let first := run (load "valid" 1 (Some "s0") (Some 0) true) w_demo in
  snd first = w_demo /\
  run (load "valid" 1 (Some "s0") (Some 0) true) (snd first) = first.
Proof. apply (exact_mode_repeatable w_demo "valid" 1 "s0" 0 true rec_s0). reflexivity. Defined.

Lemma load_labels_pass_through_witness :
  exists b picks,
    fst (run (load "train" 1 (Some "s0") (Some 1) false) w_demo) = Ok b /\
    is_selection w_demo "train" 1 (Some "s0") (Some 1) picks /\
    picks <> [] /\
    Forall (fun p => In (fst p) (train (summary w_demo) ++ valid (summary w_demo)) /\
                     is_ok (fetch w_demo p) = true /\
                     len (raw_slice (lbl_volume w_demo (fst p)) (snd p)) = 240 * 240 * 1) picks /\
    data (dats b) =
      concat (map (fun p => normalize (fst p) (raw_slice (dat_volume w_demo (fst p)) (snd p)))
                  picks) /\
    data (lbls b) =
      concat (map (fun p => raw_slice (lbl_volume w_demo (fst p)) (snd p)) picks) /\
    shape (lbls b) = [len picks; 240; 240; 1] /\
    len (data (lbls b)) = len picks * (240 * 240 * 1) /\
    dtype (lbls b) = np_uint8 /\
    Forall (fun v => 0 <= v < 256) (data (lbls b)).
Proof.
  apply (load_labels_pass_through w_demo "train" 1 (Some "s0") (Some 1) false).
  vm_compute. reflexivity.
Defined.

Lemma random_draws_are_stratified_witness :
  exists cohort inds g picks,
    summary_get (summary w_demo) "train" = Ok cohort /\
    random_randint 0 (len cohort) 1 (rng w_demo) = (Ok inds, g) /\
    len inds = 1 /\ len picks = 1 /\
    fst (run (load "train" 1 None None false) w_demo)
      = Ok (batch_written w_demo picks false) /\
    forall k ind, nth_error inds k = Some ind ->
      exists r zk lbl S acc wk,
        nth_error picks k = Some (r, zk) /\
        list_getitem cohort ind = Ok r /\
        run (for_each (load_one "train" None) (firstn k inds) ([], [], [])) (with_rng w_demo g)
          = (Ok acc, wk) /\
        lbl_volume w_demo r = Ok lbl /\
        drawn_slice lbl (rng wk) = Some zk /\
        n_slices (Ok lbl) = Some S /\ 0 <= zk < S /\
        if fgt (fst (random_rand (rng wk))) (of_Q (1 # 2))
        then has_positive (sub_block (data lbl) zk 57600)
        else ~ has_positive (sub_block (data lbl) zk 57600).
Proof.
  apply (random_draws_are_stratified w_demo "train" 1 false). vm_compute. reflexivity.
Defined.

Lemma study_id_round_trip_witness :
  basename (dirname ("../data" ++ "/" ++ "s1" ++ "/dat.npy")) = "s1" /\
  "../data" ++ "/" ++ basename (dirname ("../data" ++ "/" ++ "s1" ++ "/dat.npy")) ++ "/dat.npy"
  = "../data" ++ "/" ++ "s1" ++ "/dat.npy".
Proof. apply (study_id_round_trip "../data" "s1"); [discriminate | reflexivity]. Defined.

Lemma create_summary_all_or_nothing_witness :
  pickles (snd (run (create_summary "../data" (of_Q (2 # 10))) w_void)) = pickles w_void.
Proof. apply (create_summary_all_or_nothing w_void "../data" (of_Q (2 # 10))). reflexivity. Defined.

Lemma create_summary_empty_scan_witness :
  run (create_summary "../data" (of_Q (2 # 10))) w_demo =
  if dirs w_demo (dirname ("../data" ++ "/data.pickle"))
  then (Ok tt, with_pickle w_demo ("../data" ++ "/data.pickle") {| train := []; valid := [] |})
  else (Err FileNotFoundError, w_demo).
Proof. apply (create_summary_empty_scan w_demo "../data" (of_Q (2 # 10))). reflexivity. Defined.

Lemma create_summary_progress_lines_witness :
  stdout (snd (run (create_summary "../data" (of_Q (2 # 10))) w_fresh))
  = (stdout w_fresh ++ enumerate_from 1 (glob_result w_fresh ("../data" ++ "/*/dat.npy")))%list.
Proof.
  apply (create_summary_progress_lines w_fresh "../data" (of_Q (2 # 10))).
  vm_compute. reflexivity.
Defined.

Lemma set_root_loads_existing_witness :
  run (set_root (Some "../data")) w_pickled =
  (Ok tt, with_summary (with_root w_pickled (resolve_root w_pickled (Some "../data")))
            {| train := [rec_s0]; valid := [rec_s1] |}).
Proof.
  apply (set_root_loads_existing w_pickled (Some "../data")
           {| train := [rec_s0]; valid := [rec_s1] |}).
  reflexivity.
Defined.

Lemma set_root_builds_when_missing_witness :
  let built := snd (run (create_summary (resolve_root w_fresh (Some "../data")) (of_Q (2 # 10)))
                        (with_root w_fresh (resolve_root w_fresh (Some "../data")))) in
  let w' := snd (run (set_root (Some "../data")) w_fresh) in
  fst (run (set_root (Some "../data")) w_fresh) = Ok tt /\
  root w' = resolve_root w_fresh (Some "../data") /\
  pickles w' (resolve_root w_fresh (Some "../data") ++ "/data.pickle") = Some (summary w') /\
  w' = with_summary built (summary w').
Proof.
  apply (set_root_builds_when_missing w_fresh (Some "../data")).
  - reflexivity.
  - vm_compute. reflexivity.
Defined.

Lemma set_root_failure_moves_root_witness :
  root (snd (run (set_root (Some "/nowhere")) w_void)) = resolve_root w_void (Some "/nowhere") /\
  summary (snd (run (set_root (Some "/nowhere")) w_void)) = summary w_void.
Proof. apply (set_root_failure_moves_root w_void (Some "/nowhere")). reflexivity. Defined.

Lemma set_root_idempotent_witness :
  run (set_root (Some "../data")) (snd (run (set_root (Some "../data")) w_pickled))
  = (Ok tt, snd (run (set_root (Some "../data")) w_pickled)).
Proof. apply (set_root_idempotent w_pickled "../data"). reflexivity. Defined.

Lemma valid_ratio_extremes_witness :
  let scanned :=
    map (fun f => basename (dirname f)) (glob_result w_fresh ("../data" ++ "/*/dat.npy")) in
  exists s,
    pickles (snd (run (create_summary "../data" (Fin 1)) w_fresh)) ("../data" ++ "/data.pickle")
    = Some s /\
    ((1 <= 1)%Q -> train s = [] /\ map studyid (valid s) = scanned) /\
    ((1 < 0)%Q -> valid s = [] /\ map studyid (train s) = scanned).
Proof. apply (valid_ratio_extremes w_fresh "../data" 1). vm_compute. reflexivity. Defined.
